(** * Entry rules of the SC2 mission order (worlds/sc2/mission_order/entry_rules.py)

    A shallow embedding of the two rule hierarchies of entry_rules.py, the
    live [EntryRule] classes and the [RuleData] dataclasses sent to the
    client, and of the operations between them: evaluation against a set of
    beaten missions, compilation to a predicate on a collection state,
    conversion to slot data, tooltip rendering and parsing from a payload. *)

From Stdlib Require Import ZArith String Ascii List Lia DecimalString.
From stdpp Require Import base decidable option list sets fin_sets gmap strings.

#[local] Set Warnings "-register-all,-clear-no-such-hyp".
Local Open Scope Z_scope.

(** ** Python values and builtins used by the module *)
Module Py.

(** [Union[str, int]]: the key of a failed lookup, and an entry of a
    resolved [visual_reqs] list. *)
Definition str_or_int : Type := string + Z.

(** The exceptions the module can raise. *)
Inductive exn : Type :=
| KeyError (key : str_or_int)
| IndexError
| TypeError
| AttributeError
| RecursionError.

(** A computation that returns or raises. *)
Inductive result (A : Type) : Type :=
| Ok (a : A)
| Raise (e : exn).

Arguments Ok {A} a.
Arguments Raise {A} e.

#[global] Instance result_ret : MRet result := fun A a => Ok a.

#[global] Instance result_bind : MBind result := fun A B k m =>
  match m with
  | Ok a => k a
  | Raise e => Raise e
  end.

(** A comprehension or a [for] loop whose body can raise: the elements are
    visited from left to right and the first exception ends the loop. *)
Definition for_each {A B} (f : A -> result B) : list A -> result (list B) :=
  fix go (l : list A) : result (list B) :=
    match l with
    | [] => Ok []
    | x :: xs => y ← f x; ys ← go xs; Ok (y :: ys)
    end.

(** [l[0]]. *)
Definition first {A} (l : list A) : result A :=
  match l with
  | x :: _ => Ok x
  | [] => Raise IndexError
  end.

(** [sum(...)] over integers; a [bool] counts as 0 or 1 ([Z.b2z]). *)
Definition sum (l : list Z) : Z := foldr Z.add 0 l.

(** [len(...)]. *)
Definition len {A} (l : list A) : Z := Z.of_nat (length l).

(** [range(n)] has [n] elements, none when [n] is negative. *)
Definition range (n : Z) : list Z := Z.of_nat <$> seq 0 (Z.to_nat n).

(** [sep.join(parts)]. *)
Definition join (sep : string) (parts : list string) : string :=
  String.concat sep parts.

(** [str(n)] for an integer, as printed when the interpreter's limit on
    the digits of a converted integer is not exceeded. *)
Definition str (n : Z) : string := NilZero.string_of_int (Z.to_int n).

(** [" " * n]. *)
Definition spaces (n : nat) : string := string_of_list_ascii (repeat " "%char n).

(** The newline character of the string literals. *)
Definition nl : string := String (ascii_of_nat 10) EmptyString.

End Py.

(** ** Missions (worlds/sc2/mission_tables.py) *)

(** [SC2Mission], with the two attributes entry_rules.py reads. *)
Record SC2Mission : Type := mkSC2Mission {
  id : Z;
  mission_name : string
}.

(** ** The data hierarchy *)
Module Data.
Import Py.

(** The three dataclasses. A dataclass does not check what its fields
    hold, so the shape is given once, over the types of [mission_ids]
    ([I]), [amount] ([A]) and [visual_reqs] ([R]). *)
Inductive rule_data (I A R : Type) : Type :=
| BeatMissionsRuleData (mission_ids : I) (visual_reqs : R)
| CountMissionsRuleData (mission_ids : I) (amount : A) (visual_reqs : R)
| SubRuleRuleData (sub_rules : list (rule_data I A R)) (amount : A).

Arguments BeatMissionsRuleData {I A R} mission_ids visual_reqs.
Arguments CountMissionsRuleData {I A R} mission_ids amount visual_reqs.
Arguments SubRuleRuleData {I A R} sub_rules amount.

(** The attribute [amount] of a counting rule. *)
Definition amount_of {I A R} (d : rule_data I A R) : option A :=
  match d with
  | BeatMissionsRuleData _ _ => None
  | CountMissionsRuleData _ amount _ => Some amount
  | SubRuleRuleData _ amount => Some amount
  end.

(** [RuleData] with its fields at their annotated types:
    [mission_ids: Set[int]], [amount: int],
    [visual_reqs: List[Union[str, int]]]. *)
Definition RuleData : Type := rule_data (gset Z) Z (list str_or_int).

(** [RuleData.is_fulfilled(beaten_missions: Set[int])]. *)
Fixpoint is_fulfilled (self : RuleData) (beaten_missions : gset Z) : bool :=
  match self with
  | BeatMissionsRuleData mission_ids _ =>
      bool_decide (mission_ids ⊆ beaten_missions)
  | CountMissionsRuleData mission_ids amount _ =>
      amount <=? Z.of_nat (size (beaten_missions ∩ mission_ids))
  | SubRuleRuleData sub_rules amount =>
      amount <=? sum (map (fun rule => Z.b2z (is_fulfilled rule beaten_missions)) sub_rules)
  end.

(** [SubRuleRuleData.empty()]. *)
Definition empty : RuleData := SubRuleRuleData [] 0.

(** *** Tooltips *)

(** The first line of the three [tooltip] methods: one empty string per
    element of [range(indents)], joined by a space. *)
Definition indent_of (indents : Z) : string :=
  join " " (map (fun _ => EmptyString) (range indents)).

(** [missions[req].mission_name if type(req) == int else req]. *)
Definition req_label (missions : gmap Z SC2Mission) (req : str_or_int) : result string :=
  match req with
  | inr n =>
      match missions !! n with
      | Some m => Ok (mission_name m)
      | None => Raise (KeyError (inr n))
      end
  | inl label => Ok label
  end.

(** [BeatMissionsRuleData.tooltip]. *)
Definition BeatMissionsRuleData_tooltip (visual_reqs : list str_or_int)
    (indents : Z) (missions : gmap Z SC2Mission) : result string :=
  let indent := indent_of indents in
  if len visual_reqs =? 1 then
    req ← first visual_reqs;
    label ← req_label missions req;
    Ok ("Beat " +:+ label)
  else
    let tooltip := "Beat all of these:" +:+ nl +:+ indent +:+ "- " in
    reqs ← for_each (req_label missions) visual_reqs;
    Ok (tooltip +:+ join (nl +:+ indent +:+ "- ") reqs).

(** [CountMissionsRuleData.tooltip]. *)
Definition CountMissionsRuleData_tooltip (mission_ids : gset Z) (amount : Z)
    (visual_reqs : list str_or_int)
    (indents : Z) (missions : gmap Z SC2Mission) : result string :=
  let indent := indent_of indents in
  let amount_str :=
    if amount =? Z.of_nat (size mission_ids) then "all" else str amount in
  if len visual_reqs =? 1 then
    req ← first visual_reqs;
    req_str ← req_label missions req;
    if amount =? 1 then Ok ("Beat " +:+ req_str)
    else Ok ("Beat " +:+ amount_str +:+ " missions from " +:+ req_str)
  else
    let tooltip :=
      if amount =? 1
      then "Beat " +:+ amount_str +:+ " mission from:" +:+ nl +:+ indent +:+ "- "
      else "Beat " +:+ amount_str +:+ " missions from:" +:+ nl +:+ indent +:+ "- " in
    reqs ← for_each (req_label missions) visual_reqs;
    Ok (tooltip +:+ join (nl +:+ indent +:+ "- ") reqs).

(** The last three lines of [SubRuleRuleData.tooltip], once the wording
    of the amount is chosen and the children are rendered. *)
Definition conditions (amount_str indent : string) (parts : list string) : string :=
  let tooltip := "Fulfill " +:+ amount_str +:+ " of these conditions:" +:+ nl +:+ indent +:+ "- " in
  tooltip +:+ join (nl +:+ indent +:+ "- ") parts.

(** [RuleData.tooltip(indents, missions)], as it runs when the nesting of
    the rule stays within the interpreter's recursion limit. *)
Fixpoint tooltip (self : RuleData) (indents : Z) (missions : gmap Z SC2Mission)
    : result string :=
  match self with
  | BeatMissionsRuleData _ visual_reqs =>
      BeatMissionsRuleData_tooltip visual_reqs indents missions
  | CountMissionsRuleData mission_ids amount visual_reqs =>
      CountMissionsRuleData_tooltip mission_ids amount visual_reqs indents missions
  | SubRuleRuleData sub_rules amount =>
      let indent := indent_of indents in
      if amount =? len sub_rules then
        if amount =? 1 then
          match sub_rules with
          | rule :: _ => tooltip rule indents missions
          | [] => Raise IndexError
          end
        else
          parts ← for_each (fun rule => tooltip rule (indents + 2) missions) sub_rules;
          Ok (conditions "all" indent parts)
      else
        parts ← for_each (fun rule => tooltip rule (indents + 2) missions) sub_rules;
        Ok (conditions (str amount) indent parts)
  end.

(** *** Payloads *)

(** A generic payload: integers, strings, lists, and mappings with string
    keys. The entries of a mapping are kept in insertion order; a mapping
    binds a key once, and [dict_get] reads the first binding. *)
Inductive value : Type :=
| VInt (n : Z)
| VStr (s : string)
| VList (items : list value)
| VDict (entries : list (string * value)).

(** A rule object as [parse_from_dict] builds it: every field holds the
    payload value found under its name. *)
Definition ParsedRuleData : Type := rule_data value value value.

(** The binding of [key] in a mapping. *)
Fixpoint dict_get (entries : list (string * value)) (key : string) : option value :=
  match entries with
  | [] => None
  | (k, v) :: rest => if String.eqb k key then Some v else dict_get rest key
  end.

(** [key in entries.keys()]. *)
Definition has_key (entries : list (string * value)) (key : string) : bool :=
  match dict_get entries key with
  | Some _ => true
  | None => false
  end.

(** [data[key]] for a string key. *)
Definition getitem (data : value) (key : string) : result value :=
  match data with
  | VDict entries =>
      match dict_get entries key with
      | Some v => Ok v
      | None => Raise (KeyError (inl key))
      end
  | _ => Raise TypeError
  end.

(** The elements a [for] loop over [v] visits: the items of a list, the
    keys of a mapping, the characters of a string. *)
Definition iter (v : value) : result (list value) :=
  match v with
  | VList items => Ok items
  | VDict entries => Ok (map (fun kv => VStr (fst kv)) entries)
  | VStr s => Ok (map (fun c => VStr (String c EmptyString)) (list_ascii_of_string s))
  | VInt _ => Raise TypeError
  end.

(** [key in v] for a string key: a key of a mapping, an element of a
    list, a substring of a string. *)
Definition contains (key : string) (v : value) : result bool :=
  match v with
  | VDict entries => Ok (has_key entries key)
  | VList items =>
      Ok (existsb (fun x => match x with VStr s => String.eqb s key | _ => false end) items)
  | VStr s =>
      Ok (match String.index 0 key s with Some _ => true | None => false end)
  | VInt _ => Raise TypeError
  end.

(** [v.items()]. *)
Definition items (v : value) : result (list (string * value)) :=
  match v with
  | VDict entries => Ok entries
  | _ => Raise AttributeError
  end.

(** The [__init__] a dataclass generates, called with keyword arguments
    only, raises [TypeError] for a keyword that is no field and for a
    field without its keyword. [all_fields] is the first check. *)
Definition all_fields (fields : list string) (kwargs : list (string * value)) : bool :=
  forallb (fun kv => existsb (String.eqb (fst kv)) fields) kwargs.

(** [BeatMissionsRuleData] called with the keyword arguments [kwargs]. *)
Definition BeatMissionsRuleData_kwargs (kwargs : list (string * value))
    : result ParsedRuleData :=
  if all_fields ["mission_ids"; "visual_reqs"]%string kwargs then
    match dict_get kwargs "mission_ids", dict_get kwargs "visual_reqs" with
    | Some mission_ids, Some visual_reqs =>
        Ok (BeatMissionsRuleData mission_ids visual_reqs)
    | _, _ => Raise TypeError
    end
  else Raise TypeError.

(** [CountMissionsRuleData] called with the keyword arguments [kwargs]. *)
Definition CountMissionsRuleData_kwargs (kwargs : list (string * value))
    : result ParsedRuleData :=
  if all_fields ["mission_ids"; "amount"; "visual_reqs"]%string kwargs then
    match dict_get kwargs "mission_ids", dict_get kwargs "amount",
          dict_get kwargs "visual_reqs" with
    | Some mission_ids, Some amount, Some visual_reqs =>
        Ok (CountMissionsRuleData mission_ids amount visual_reqs)
    | _, _, _ => Raise TypeError
    end
  else Raise TypeError.

(** The body of the loop of [parse_from_dict], with the recursive call as
    [parse]. *)
Definition parse_rule (parse : value -> result ParsedRuleData) (rule_data : value)
    : result ParsedRuleData :=
  is_sub_rule ← contains "sub_rules" rule_data;
  if is_sub_rule : bool then parse rule_data
  else
    is_count ← contains "amount" rule_data;
    if is_count : bool then
      kwargs ← items rule_data;
      CountMissionsRuleData_kwargs kwargs
    else
      kwargs ← items rule_data;
      BeatMissionsRuleData_kwargs kwargs.

(** [SubRuleRuleData.parse_from_dict(data)], called with [depth] frames
    left before the interpreter's recursion limit: every call takes one
    frame, and a call that has none left raises [RecursionError]. *)
Fixpoint parse_from_dict_upto (depth : nat) (data : value) : result ParsedRuleData :=
  match depth with
  | O => Raise RecursionError
  | S depth' =>
      amount ← getitem data "amount";
      rules ← getitem data "sub_rules";
      rules ← iter rules;
      sub_rules ← for_each (parse_rule (parse_from_dict_upto depth')) rules;
      Ok (SubRuleRuleData sub_rules amount)
  end.

(** The nesting depth of a payload. *)
Fixpoint depth (v : value) : nat :=
  match v with
  | VInt _ | VStr _ => O
  | VList items => S (foldr Nat.max O (map depth items))
  | VDict entries => S (foldr Nat.max O (map (fun kv => depth (snd kv)) entries))
  end.

(** [SubRuleRuleData.parse_from_dict(data)] when the recursion limit is
    out of reach: the recursion follows the nesting of [data], so
    [S (depth data)] frames are enough (see [parse_from_dict_eq]). What
    depends on the limit is stated on [parse_from_dict_upto]. *)
Definition parse_from_dict (data : value) : result ParsedRuleData :=
  parse_from_dict_upto (S (depth data)) data.

(** *** Payloads and annotated rules *)

(** A payload value read at the annotated type of a field: an integer for
    [amount], a list of distinct integers for the set [mission_ids], a
    list of strings and integers for [visual_reqs]. *)
Definition as_int (v : value) : option Z :=
  match v with
  | VInt n => Some n
  | _ => None
  end.

Definition as_ids (v : value) : option (gset Z) :=
  match v with
  | VList items =>
      ids ← mapM as_int items;
      if decide (NoDup ids) then Some (list_to_set ids) else None
  | _ => None
  end.

Definition as_req (v : value) : option str_or_int :=
  match v with
  | VStr label => Some (inl label)
  | VInt n => Some (inr n)
  | _ => None
  end.

Definition as_reqs (v : value) : option (list str_or_int) :=
  match v with
  | VList items => mapM as_req items
  | _ => None
  end.

(** A parsed rule read at the annotated types, when every field fits. *)
Fixpoint typed (d : ParsedRuleData) : option RuleData :=
  match d with
  | BeatMissionsRuleData mission_ids visual_reqs =>
      ids ← as_ids mission_ids;
      reqs ← as_reqs visual_reqs;
      Some (BeatMissionsRuleData ids reqs)
  | CountMissionsRuleData mission_ids amount visual_reqs =>
      ids ← as_ids mission_ids;
      n ← as_int amount;
      reqs ← as_reqs visual_reqs;
      Some (CountMissionsRuleData ids n reqs)
  | SubRuleRuleData sub_rules amount =>
      rules ← mapM typed sub_rules;
      n ← as_int amount;
      Some (SubRuleRuleData rules n)
  end.

(** The fields of an annotated rule as payload values. *)
Definition of_ids (ids : gset Z) : value := VList (map VInt (elements ids)).

Definition of_req (req : str_or_int) : value :=
  match req with
  | inl label => VStr label
  | inr n => VInt n
  end.

Definition of_reqs (reqs : list str_or_int) : value := VList (map of_req reqs).

Fixpoint untyped (d : RuleData) : ParsedRuleData :=
  match d with
  | BeatMissionsRuleData mission_ids visual_reqs =>
      BeatMissionsRuleData (of_ids mission_ids) (of_reqs visual_reqs)
  | CountMissionsRuleData mission_ids amount visual_reqs =>
      CountMissionsRuleData (of_ids mission_ids) (VInt amount) (of_reqs visual_reqs)
  | SubRuleRuleData sub_rules amount =>
      SubRuleRuleData (map untyped sub_rules) (VInt amount)
  end.

(** Modelled from the spec: the serializer is not part of
    entry_rules.py. A rule becomes the mapping of its fields, under their
    names and in their declared order; the children of a sub-rule are
    serialized in place, in order. *)
Fixpoint to_payload (d : ParsedRuleData) : value :=
  match d with
  | BeatMissionsRuleData mission_ids visual_reqs =>
      VDict [("mission_ids", mission_ids); ("visual_reqs", visual_reqs)]%string
  | CountMissionsRuleData mission_ids amount visual_reqs =>
      VDict [("mission_ids", mission_ids); ("amount", amount);
             ("visual_reqs", visual_reqs)]%string
  | SubRuleRuleData sub_rules amount =>
      VDict [("sub_rules", VList (map to_payload sub_rules)); ("amount", amount)]%string
  end.

Definition serialize (d : RuleData) : value := to_payload (untyped d).

End Data.

(** ** The live hierarchy *)
Module Live.
Import Py.

Section Missions.
(** [SC2MOGenMission] (mission_order/structs.py) is an object of the
    mission order under construction: sets hold such objects, and the
    rules read [mission.mission] and [mission.beat_item()] from them. *)
Context {SC2MOGenMission : Type} `{Countable SC2MOGenMission}.
Variable mission : SC2MOGenMission -> SC2Mission.
Variable beat_item : SC2MOGenMission -> string.

(** The objects as they are once [__init__] has run. *)
Inductive EntryRule : Type :=
| BeatMissionsEntryRule
    (missions_to_beat : gset SC2MOGenMission)
    (visual_reqs : list (string + SC2MOGenMission))
| CountMissionsEntryRule
    (missions_to_count : gset SC2MOGenMission)
    (target_amount : Z)
    (visual_reqs : list (string + SC2MOGenMission))
| SubRuleEntryRule
    (rules_to_check : list EntryRule)
    (target_amount : Z).

(** [BeatMissionsEntryRule.__init__]. *)
Definition BeatMissionsEntryRule_init
    (missions_to_beat : gset SC2MOGenMission)
    (visual_reqs : list (string + SC2MOGenMission)) : EntryRule :=
  BeatMissionsEntryRule missions_to_beat visual_reqs.

(** [CountMissionsEntryRule.__init__]. *)
Definition CountMissionsEntryRule_init
    (missions_to_count : gset SC2MOGenMission) (target_amount : Z)
    (visual_reqs : list (string + SC2MOGenMission)) : EntryRule :=
  if (target_amount =? -1) || (Z.of_nat (size missions_to_count) <? target_amount)
  then CountMissionsEntryRule missions_to_count (Z.of_nat (size missions_to_count)) visual_reqs
  else CountMissionsEntryRule missions_to_count target_amount visual_reqs.

(** [SubRuleEntryRule.__init__]. *)
Definition SubRuleEntryRule_init
    (rules_to_check : list EntryRule) (target_amount : Z) : EntryRule :=
  if (target_amount =? -1) || (len rules_to_check <? target_amount)
  then SubRuleEntryRule rules_to_check (len rules_to_check)
  else SubRuleEntryRule rules_to_check target_amount.

(** The attribute [target_amount] of a counting rule. *)
Definition target_amount_of (rule : EntryRule) : option Z :=
  match rule with
  | BeatMissionsEntryRule _ _ => None
  | CountMissionsEntryRule _ target_amount _ => Some target_amount
  | SubRuleEntryRule _ target_amount => Some target_amount
  end.

(** [EntryRule.is_fulfilled(beaten_missions: Set[SC2MOGenMission])]. *)
Fixpoint is_fulfilled (self : EntryRule) (beaten_missions : gset SC2MOGenMission) : bool :=
  match self with
  | BeatMissionsEntryRule missions_to_beat _ =>
      bool_decide (missions_to_beat ⊆ beaten_missions)
  | CountMissionsEntryRule missions_to_count target_amount _ =>
      target_amount <=? Z.of_nat (size (beaten_missions ∩ missions_to_count))
  | SubRuleEntryRule rules_to_check target_amount =>
      target_amount <=?
        sum (map (fun rule => Z.b2z (is_fulfilled rule beaten_missions)) rules_to_check)
  end.

(** [EntryRule.is_always_fulfilled()]. *)
Definition is_always_fulfilled (self : EntryRule) : bool :=
  is_fulfilled self ∅.

(** The comprehension shared by the three [to_slot_data] methods:
    [req if type(req) == str else req.mission.id]. *)
Definition resolve_req (req : string + SC2MOGenMission) : str_or_int :=
  match req with
  | inl label => inl label
  | inr m => inr (id (mission m))
  end.

(** [EntryRule.to_slot_data()]. *)
Fixpoint to_slot_data (self : EntryRule) : Data.RuleData :=
  match self with
  | BeatMissionsEntryRule missions_to_beat visual_reqs =>
      let resolved_reqs := map resolve_req visual_reqs in
      let mission_ids : gset Z := set_map (fun m => id (mission m)) missions_to_beat in
      Data.BeatMissionsRuleData mission_ids resolved_reqs
  | CountMissionsEntryRule missions_to_count target_amount visual_reqs =>
      let resolved_reqs := map resolve_req visual_reqs in
      let mission_ids : gset Z := set_map (fun m => id (mission m)) missions_to_count in
      Data.CountMissionsRuleData mission_ids target_amount resolved_reqs
  | SubRuleEntryRule rules_to_check target_amount =>
      let sub_rules := map to_slot_data rules_to_check in
      Data.SubRuleRuleData sub_rules target_amount
  end.

Section Lambda.
(** [CollectionState] (BaseClasses.py), through the two queries the
    rules make: [state.has(item, player)] and
    [state.has_all(items, player)]. *)
Variable CollectionState : Type.
Variable has : CollectionState -> string -> Z -> bool.
Variable has_all : CollectionState -> list string -> Z -> bool.

(** [EntryRule.to_lambda(player)]. A set is iterated through its
    [elements]. *)
Fixpoint to_lambda (self : EntryRule) (player : Z) : CollectionState -> bool :=
  match self with
  | BeatMissionsEntryRule missions_to_beat _ =>
      fun state => has_all state (map beat_item (elements missions_to_beat)) player
  | CountMissionsEntryRule missions_to_count target_amount _ =>
      fun state =>
        target_amount <=?
          sum (map (fun m => Z.b2z (has state (beat_item m) player))
                   (elements missions_to_count))
  | SubRuleEntryRule rules_to_check target_amount =>
      let sub_lambdas := map (fun rule => to_lambda rule player) rules_to_check in
      fun state =>
        target_amount <=?
          sum (map (fun sub_lambda : CollectionState -> bool => Z.b2z (sub_lambda state))
                   sub_lambdas)
  end.
End Lambda.
End Missions.

Arguments EntryRule SC2MOGenMission {_ _}.

End Live.

(** ** Payloads that [parse_from_dict] must reject *)
Module Malformed.
Import Py Data.

(** A leaf mapping that lacks one of the fields of its dataclass, or
    carries a key that is none of them. *)
Definition leaf (fields : list string) (entries : list (string * value)) : Prop :=
  (exists field, In field fields /\ dict_get entries field = None)
  \/ (exists key, In key (map fst entries) /\ ~ In key fields).

(** A sub-rule mapping that lacks ['amount'] or ['sub_rules'], or one of
    whose nested payloads, selected as the parser selects them, is
    malformed in turn. *)
Inductive payload : value -> Prop :=
| no_amount entries :
    dict_get entries "amount" = None ->
    payload (VDict entries)
| no_sub_rules entries :
    dict_get entries "sub_rules" = None ->
    payload (VDict entries)
| nested_sub_rule entries rules nested :
    dict_get entries "sub_rules" = Some (VList rules) ->
    In (VDict nested) rules ->
    has_key nested "sub_rules" = true ->
    payload (VDict nested) ->
    payload (VDict entries)
| nested_count entries rules nested :
    dict_get entries "sub_rules" = Some (VList rules) ->
    In (VDict nested) rules ->
    has_key nested "sub_rules" = false ->
    has_key nested "amount" = true ->
    leaf ["mission_ids"; "amount"; "visual_reqs"]%string nested ->
    payload (VDict entries)
| nested_beat entries rules nested :
    dict_get entries "sub_rules" = Some (VList rules) ->
    In (VDict nested) rules ->
    has_key nested "sub_rules" = false ->
    has_key nested "amount" = false ->
    leaf ["mission_ids"; "visual_reqs"]%string nested ->
    payload (VDict entries).

End Malformed.

(** ** The missions of the scenarios *)
Module Scenario.

(** Mission objects are numbered; the first two are Alpha (id 1) and
    Beta (id 2). *)
Definition mission (m : positive) : SC2Mission :=
  mkSC2Mission (Z.pos m)
    (match m with
     | 1%positive => "Alpha"
     | 2%positive => "Beta"
     | _ => "Gamma"
     end).

Definition beat_item (m : positive) : string :=
  "Beat " +:+ mission_name (mission m).

(** The lookup table [missions] of the tooltips. *)
Definition missions : gmap Z SC2Mission :=
  <[1 := mission 1]> (<[2 := mission 2]> ∅).

(** A collection state is the set of items held; players share it. *)
Definition has (state : gset string) (item : string) (player : Z) : bool :=
  bool_decide (item ∈ state).

Definition has_all (state : gset string) (items : list string) (player : Z) : bool :=
  forallb (fun item => has state item player) items.

(** Scenario 3, live: one of "beat Alpha" and "beat one of Beta and the
    third mission". *)
Definition rule : Live.EntryRule positive :=
  Live.SubRuleEntryRule_init
    [Live.BeatMissionsEntryRule_init {[1%positive]} [inr 1%positive];
     Live.CountMissionsEntryRule_init {[2%positive; 3%positive]} 1
       [inr 2%positive; inl "the third mission"%string]]
    1.

(** Scenario 5: the payload of a sub-rule with one BeatMissions child. *)
Definition payload : Data.value :=
  Data.VDict
    [("amount", Data.VInt 1);
     ("sub_rules",
      Data.VList
        [Data.VDict [("mission_ids", Data.VList [Data.VInt 5]);
                     ("visual_reqs", Data.VList [Data.VInt 5])]])]%string.

(** The same payload with the [visual_reqs] of the child left out. *)
Definition truncated_payload : Data.value :=
  Data.VDict
    [("amount", Data.VInt 1);
     ("sub_rules",
      Data.VList [Data.VDict [("mission_ids", Data.VList [Data.VInt 5])]])]%string.

End Scenario.

(** ** What a rule reads, and the shapes it can have *)
Module Shape.
Import Py.

Section Live.
Context {SC2MOGenMission : Type} `{Countable SC2MOGenMission}.

(** The missions [is_fulfilled] and [to_lambda] look for: the sets
    [missions_to_beat] and [missions_to_count] of the rule and of its
    nested rules. *)
Fixpoint missions_of (rule : Live.EntryRule SC2MOGenMission) : gset SC2MOGenMission :=
  match rule with
  | Live.BeatMissionsEntryRule missions_to_beat _ => missions_to_beat
  | Live.CountMissionsEntryRule missions_to_count _ _ => missions_to_count
  | Live.SubRuleEntryRule rules_to_check _ => ⋃ (map missions_of rules_to_check)
  end.

(** What the two counting [__init__] methods establish: no rule of the
    tree stores a threshold above the size of the collection it counts. *)
Inductive clamped : Live.EntryRule SC2MOGenMission -> Prop :=
| clamped_beat missions_to_beat visual_reqs :
    clamped (Live.BeatMissionsEntryRule missions_to_beat visual_reqs)
| clamped_count missions_to_count target_amount visual_reqs :
    target_amount <= Z.of_nat (size missions_to_count) ->
    clamped (Live.CountMissionsEntryRule missions_to_count target_amount visual_reqs)
| clamped_sub_rule rules_to_check target_amount :
    target_amount <= len rules_to_check ->
    Forall clamped rules_to_check ->
    clamped (Live.SubRuleEntryRule rules_to_check target_amount).

End Live.

(** A mapping that binds every field of a dataclass and no other key. *)
Definition exact_fields (fields : list string) (entries : list (string * Data.value)) : Prop :=
  (forall field, In field fields -> Data.has_key entries field = true)
  /\ (forall key, In key (map fst entries) -> In key fields).

(** A nested payload of the shape the three dataclasses serialize to: a
    mapping with ['sub_rules'], a list of such payloads, and ['amount']; or
    a mapping with exactly the fields of CountMissionsRuleData; or one with
    exactly the fields of BeatMissionsRuleData. *)
Inductive rule_payload : Data.value -> Prop :=
| sub_rule_payload entries amount rules :
    Data.dict_get entries "amount" = Some amount ->
    Data.dict_get entries "sub_rules" = Some (Data.VList rules) ->
    Forall rule_payload rules ->
    rule_payload (Data.VDict entries)
| count_payload entries :
    exact_fields ["mission_ids"; "amount"; "visual_reqs"]%string entries ->
    rule_payload (Data.VDict entries)
| beat_payload entries :
    exact_fields ["mission_ids"; "visual_reqs"]%string entries ->
    rule_payload (Data.VDict entries).

(** The number of sub-rules nested in one another along the longest
    branch of a rule: the frames [parse_from_dict] needs to read it. *)
Fixpoint levels {I A R} (d : Data.rule_data I A R) : nat :=
  match d with
  | Data.BeatMissionsRuleData _ _ => O
  | Data.CountMissionsRuleData _ _ _ => O
  | Data.SubRuleRuleData sub_rules _ => S (foldr Nat.max O (map levels sub_rules))
  end.

End Shape.

(** ** Further cases *)
Module Cases.

(** Two mission objects that carry the same [SC2Mission]. *)
Definition twin_mission (m : positive) : SC2Mission := mkSC2Mission 7 "Twin".

(** Scenario 4: three BeatMissions children under a sub-rule that asks
    for all of them with the target -1. *)
Definition all_of_three : list (Live.EntryRule positive) :=
  [Live.BeatMissionsEntryRule_init {[1%positive]} [inr 1%positive];
   Live.BeatMissionsEntryRule_init {[2%positive]} [inr 2%positive];
   Live.BeatMissionsEntryRule_init {[3%positive]} [inl "the third mission"%string]].

(** The visual requirements of a rule that names mission 9, which
    [Scenario.missions] does not hold. *)
Definition unknown_reqs : list Py.str_or_int := [inr 1; inr 9].

(** A sub-rule without rules, under [n] sub-rules of one rule each. *)
Fixpoint nested (n : nat) : Data.RuleData :=
  match n with
  | O => Data.SubRuleRuleData [] 0
  | S n' => Data.SubRuleRuleData [nested n'] 1
  end.

(** Scenario 5 with two more nested payloads, an integer and a string,
    neither of which is a mapping. *)
Definition payload_with_stray_items : Data.value :=
  Data.VDict
    [("amount", Data.VInt 1);
     ("sub_rules",
      Data.VList
        [Data.VDict [("mission_ids", Data.VList [Data.VInt 5]);
                     ("visual_reqs", Data.VList [Data.VInt 5])];
         Data.VInt 5;
         Data.VStr "mission_ids"])]%string.

(** A mapping whose ['sub_rules'] is an empty string. *)
Definition entries_without_rules : list (string * Data.value) :=
  [("amount", Data.VInt 0); ("sub_rules", Data.VStr EmptyString)]%string.

(** The entries of scenario 5 in the other order, with a key the parser
    does not know. *)
Definition annotated_entries : list (string * Data.value) :=
  [("comment", Data.VStr "generated");
   ("sub_rules",
    Data.VList
      [Data.VDict [("mission_ids", Data.VList [Data.VInt 5]);
                   ("visual_reqs", Data.VList [Data.VInt 5])]]);
   ("amount", Data.VInt 1)]%string.

End Cases.

(** * Properties *)

Import Py.

(** ** Counting with [sum] *)
Section Sum.
Context {A : Type}.

Lemma sum_b2z_nonneg (f : A -> bool) (l : list A) :
  0 <= sum (map (fun x => Z.b2z (f x)) l).
Proof.
  induction l as [|x l IH]; simpl; [lia|].
  unfold sum in *. simpl. destruct (f x); simpl; lia.
Qed.

Lemma sum_b2z_le (f g : A -> bool) (l : list A) :
  Forall (fun x => f x = true -> g x = true) l ->
  sum (map (fun x => Z.b2z (f x)) l) <= sum (map (fun x => Z.b2z (g x)) l).
Proof.
  unfold sum. induction 1 as [|x l Hx _ IH]; simpl; [lia|].
  destruct (f x) eqn:Hf; [rewrite Hx by done|destruct (g x)]; simpl; lia.
Qed.

Lemma sum_b2z_ext (f g : A -> bool) (l : list A) :
  Forall (fun x => f x = g x) l ->
  sum (map (fun x => Z.b2z (f x)) l) = sum (map (fun x => Z.b2z (g x)) l).
Proof.
  unfold sum. induction 1 as [|x l Hx _ IH]; simpl; [done|].
  by rewrite Hx, IH.
Qed.

Lemma sum_b2z_filter (f : A -> bool) (P : A -> Prop) `{!forall x, Decision (P x)}
    (l : list A) :
  (forall x, f x = true <-> P x) ->
  sum (map (fun x => Z.b2z (f x)) l) = Z.of_nat (length (filter P l)).
Proof.
  intros Hf. unfold sum. induction l as [|x l IH]; simpl; [done|].
  rewrite IH, filter_cons. destruct (decide (P x)) as [HP|HP].
  - apply Hf in HP. rewrite HP. cbn [length Z.b2z]. lia.
  - destruct (f x) eqn:Hx; [by apply Hf in Hx|]. cbn [Z.b2z]. lia.
Qed.
End Sum.

(** ** Sets of missions and sets of ids *)
Section Sets.
Context `{Countable A}.

Lemma size_intersection_filter (X Y : gset A) :
  size (X ∩ Y) = length (filter (fun x => x ∈ X) (elements Y)).
Proof.
  unfold size, set_size. simpl. apply Permutation_length, NoDup_Permutation.
  - apply NoDup_elements.
  - apply NoDup_filter, NoDup_elements.
  - intros x. rewrite elem_of_elements, list_elem_of_filter, elem_of_elements.
    set_solver.
Qed.

Lemma size_intersection_mono (X X' Y : gset A) :
  X ⊆ X' -> (size (X ∩ Y) <= size (X' ∩ Y))%nat.
Proof. intros HX. apply subseteq_size. set_solver. Qed.

Context `{Countable B} (f : A -> B).
Hypothesis f_inj : forall x y, f x = f y -> x = y.

Lemma set_map_subseteq_inj (X Y : gset A) :
  (set_map f X : gset B) ⊆ set_map f Y <-> X ⊆ Y.
Proof.
  split; [|set_solver].
  intros HXY x Hx.
  assert (Hfx : f x ∈ (set_map f Y : gset B)) by (apply HXY; set_solver).
  apply elem_of_map in Hfx as (y & Hxy & Hy). by rewrite (f_inj _ _ Hxy).
Qed.

Lemma set_map_intersection_inj (X Y : gset A) :
  (set_map f X : gset B) ∩ set_map f Y = set_map f (X ∩ Y).
Proof.
  apply set_eq. intros b. rewrite elem_of_intersection, !elem_of_map. split.
  - intros [(x & -> & Hx) (y & Hxy & Hy)]. exists x. split; [done|].
    apply f_inj in Hxy. subst y. set_solver.
  - intros (x & -> & Hx). split; exists x; set_solver.
Qed.

Lemma size_set_map_inj (X : gset A) :
  size (set_map f X : gset B) = size X.
Proof.
  unfold set_map. rewrite size_list_to_set.
  - by rewrite length_fmap.
  - apply NoDup_fmap_2; [|apply NoDup_elements].
    intros x y. apply f_inj.
Qed.
End Sets.

(** ** Induction over nested rules *)
Section Induction.
Context {SC2MOGenMission : Type} `{Countable SC2MOGenMission}.

Lemma EntryRule_nested_ind (P : Live.EntryRule SC2MOGenMission -> Prop) :
  (forall missions_to_beat visual_reqs,
      P (Live.BeatMissionsEntryRule missions_to_beat visual_reqs)) ->
  (forall missions_to_count target_amount visual_reqs,
      P (Live.CountMissionsEntryRule missions_to_count target_amount visual_reqs)) ->
  (forall rules_to_check target_amount,
      Forall P rules_to_check ->
      P (Live.SubRuleEntryRule rules_to_check target_amount)) ->
  forall rule, P rule.
Proof.
  intros HBeat HCount HSub.
  fix IH 1. intros [ms vr|ms t vr|rules t].
  - apply HBeat.
  - apply HCount.
  - apply HSub. induction rules as [|r rules IHrules]; constructor.
    + apply IH.
    + apply IHrules.
Qed.
End Induction.

Lemma rule_data_nested_ind {I A R : Type} (P : Data.rule_data I A R -> Prop) :
  (forall mission_ids visual_reqs,
      P (Data.BeatMissionsRuleData mission_ids visual_reqs)) ->
  (forall mission_ids amount visual_reqs,
      P (Data.CountMissionsRuleData mission_ids amount visual_reqs)) ->
  (forall sub_rules amount,
      Forall P sub_rules -> P (Data.SubRuleRuleData sub_rules amount)) ->
  forall d, P d.
Proof.
  intros HBeat HCount HSub.
  fix IH 1. intros [ms vr|ms a vr|rules a].
  - apply HBeat.
  - apply HCount.
  - apply HSub. induction rules as [|r rules IHrules]; constructor.
    + apply IH.
    + apply IHrules.
Qed.

(** ** Conversion of the live rules *)
Section Conversion.
Context {SC2MOGenMission : Type} `{Countable SC2MOGenMission}.
Variable mission : SC2MOGenMission -> SC2Mission.

Local Abbreviation EntryRule := (Live.EntryRule SC2MOGenMission).
Local Abbreviation mission_id := (fun m => id (mission m)).

(** The ids of a set of missions, [{m.mission.id for m in S}]. *)
Local Abbreviation ids_of S := (set_map (D:=gset Z) mission_id S).

(** C1. Conversion fidelity: when distinct missions have distinct ids, a
    live rule, nested children included, is fulfilled by a set of beaten
    missions exactly when its slot data is fulfilled by the set of their
    ids. *)
Theorem conversion_fidelity (rule : EntryRule) (beaten : gset SC2MOGenMission) :
  (forall m1 m2, id (mission m1) = id (mission m2) -> m1 = m2) ->
  Live.is_fulfilled rule beaten
  = Data.is_fulfilled (Live.to_slot_data mission rule) (ids_of beaten).
Proof.
  intros Hinj.
  induction rule as [ms vr|ms t vr|rules t IH] using EntryRule_nested_ind; simpl.
  - apply bool_decide_ext. symmetry.
    apply (set_map_subseteq_inj mission_id Hinj).
  - rewrite (set_map_intersection_inj mission_id Hinj).
    by rewrite (size_set_map_inj mission_id Hinj).
  - f_equal. rewrite map_map. apply sum_b2z_ext.
    eapply Forall_impl; [exact IH|]. by intros r ->.
Qed.

(** C3. Clamp invariant: both counting constructors store the size of
    their collection when the target is -1 or exceeds that size, and the
    target itself otherwise; the conversion to slot data reads that stored
    threshold back unchanged. *)
Theorem clamp_invariant (missions : gset SC2MOGenMission) (rules : list EntryRule)
    (target : Z) (visual_reqs : list (string + SC2MOGenMission)) :
  Live.target_amount_of (Live.CountMissionsEntryRule_init missions target visual_reqs)
  = Some (if decide (target = -1 \/ Z.of_nat (size missions) < target)
          then Z.of_nat (size missions) else target)
  /\ Live.target_amount_of (Live.SubRuleEntryRule_init rules target)
     = Some (if decide (target = -1 \/ len rules < target)
             then len rules else target)
  /\ Data.amount_of
       (Live.to_slot_data mission (Live.CountMissionsEntryRule_init missions target visual_reqs))
     = Live.target_amount_of (Live.CountMissionsEntryRule_init missions target visual_reqs)
  /\ Data.amount_of (Live.to_slot_data mission (Live.SubRuleEntryRule_init rules target))
     = Live.target_amount_of (Live.SubRuleEntryRule_init rules target).
Proof.
  unfold Live.CountMissionsEntryRule_init, Live.SubRuleEntryRule_init.
  repeat split.
  - destruct (decide _) as [Hc|Hc];
      destruct (target =? -1) eqn:E1;
      destruct (Z.of_nat (size missions) <? target) eqn:E2; simpl; try done; lia.
  - destruct (decide _) as [Hc|Hc];
      destruct (target =? -1) eqn:E1;
      destruct (len rules <? target) eqn:E2; simpl; try done; lia.
  - by destruct (_ || _).
  - by destruct (_ || _).
Qed.

End Conversion.

(** ** Evaluation of the live rules *)
Section Evaluation.
Context {SC2MOGenMission : Type} `{Countable SC2MOGenMission}.

Local Abbreviation EntryRule := (Live.EntryRule SC2MOGenMission).

(** A threshold of at most 0 is met by every set of beaten missions. *)
Lemma count_nonpositive_fulfilled missions t visual_reqs (beaten : gset SC2MOGenMission) :
  t <= 0 ->
  Live.is_fulfilled (Live.CountMissionsEntryRule missions t visual_reqs) beaten = true.
Proof. intros Ht. simpl. apply Z.leb_le. lia. Qed.

Lemma sub_rule_nonpositive_fulfilled (rules : list EntryRule) t
    (beaten : gset SC2MOGenMission) :
  t <= 0 -> Live.is_fulfilled (Live.SubRuleEntryRule rules t) beaten = true.
Proof.
  intros Ht. simpl. apply Z.leb_le.
  pose proof (sum_b2z_nonneg (fun r => Live.is_fulfilled r beaten) rules). lia.
Qed.

(** C9, as amended. Both counting constructors accept every integer
    target. The stored threshold is at most 0 exactly when the collection
    is empty (a target of -1 or above 0 is then clamped to 0) or the target
    is at most 0 and not -1 (it is then stored unchanged); a rule with such
    a threshold is fulfilled by every set of beaten missions, the empty
    one included. *)
Theorem degenerate_thresholds (missions : gset SC2MOGenMission) (rules : list EntryRule)
    (target : Z) (visual_reqs : list (string + SC2MOGenMission)) :
  (exists t,
      Live.target_amount_of (Live.CountMissionsEntryRule_init missions target visual_reqs)
      = Some t
      /\ (t <= 0 <-> size missions = 0%nat \/ (target <= 0 /\ target <> -1))
      /\ (size missions = 0%nat -> target = -1 \/ 0 < target -> t = 0)
      /\ (target <= 0 -> target <> -1 -> t = target)
      /\ (t <= 0 ->
          (forall beaten,
              Live.is_fulfilled
                (Live.CountMissionsEntryRule_init missions target visual_reqs) beaten = true)
          /\ Live.is_always_fulfilled
               (Live.CountMissionsEntryRule_init missions target visual_reqs) = true))
  /\ (exists t,
      Live.target_amount_of (Live.SubRuleEntryRule_init rules target) = Some t
      /\ (t <= 0 <-> length rules = 0%nat \/ (target <= 0 /\ target <> -1))
      /\ (length rules = 0%nat -> target = -1 \/ 0 < target -> t = 0)
      /\ (target <= 0 -> target <> -1 -> t = target)
      /\ (t <= 0 ->
          (forall beaten,
              Live.is_fulfilled (Live.SubRuleEntryRule_init rules target) beaten = true)
          /\ Live.is_always_fulfilled (Live.SubRuleEntryRule_init rules target) = true)).
Proof.
  unfold Live.is_always_fulfilled, Live.CountMissionsEntryRule_init,
    Live.SubRuleEntryRule_init, len.
  split.
  - destruct (target =? -1) eqn:E1;
      destruct (Z.of_nat (size missions) <? target) eqn:E2; cbn [orb];
      eexists; (split; [reflexivity|]);
      (split_and!; [lia..|]); intros Ht; split; intros;
      by apply count_nonpositive_fulfilled.
  - destruct (target =? -1) eqn:E1;
      destruct (Z.of_nat (length rules) <? target) eqn:E2; cbn [orb];
      eexists; (split; [reflexivity|]);
      (split_and!; [lia..|]); intros Ht; split; intros;
      by apply sub_rule_nonpositive_fulfilled.
Qed.

(** Completing more missions never lowers the number of fulfilled
    children. *)
Lemma live_is_fulfilled_mono (rule : EntryRule) (S T : gset SC2MOGenMission) :
  S ⊆ T -> Live.is_fulfilled rule S = true -> Live.is_fulfilled rule T = true.
Proof.
  intros HST.
  induction rule as [ms vr|ms t vr|rules t IH] using EntryRule_nested_ind; simpl.
  - rewrite !bool_decide_eq_true. set_solver.
  - rewrite !Z.leb_le. pose proof (size_intersection_mono S T ms HST). lia.
  - rewrite !Z.leb_le.
    pose proof (sum_b2z_le (fun r => Live.is_fulfilled r S)
                  (fun r => Live.is_fulfilled r T) rules IH) as Hle.
    cbv beta in Hle. lia.
Qed.
End Evaluation.

Lemma data_is_fulfilled_mono (d : Data.RuleData) (S T : gset Z) :
  S ⊆ T -> Data.is_fulfilled d S = true -> Data.is_fulfilled d T = true.
Proof.
  intros HST.
  induction d as [ms vr|ms t vr|rules t IH] using rule_data_nested_ind; simpl.
  - rewrite !bool_decide_eq_true. set_solver.
  - rewrite !Z.leb_le. pose proof (size_intersection_mono S T ms HST). lia.
  - rewrite !Z.leb_le.
    pose proof (sum_b2z_le (fun r => Data.is_fulfilled r S)
                  (fun r => Data.is_fulfilled r T) rules IH) as Hle.
    cbv beta in Hle. lia.
Qed.

(** C4. Superset law and monotonicity: a BeatMissions rule, live or data,
    is fulfilled exactly by the supersets of its required set; and every
    rule, live or data, that is fulfilled by a set is fulfilled by each of
    its supersets. *)
Theorem superset_monotonicity {SC2MOGenMission : Type} `{Countable SC2MOGenMission} :
  (forall missions_to_beat visual_reqs (S : gset SC2MOGenMission),
      Live.is_fulfilled (Live.BeatMissionsEntryRule missions_to_beat visual_reqs) S = true
      <-> missions_to_beat ⊆ S)
  /\ (forall mission_ids visual_reqs (S : gset Z),
      Data.is_fulfilled (Data.BeatMissionsRuleData mission_ids visual_reqs) S = true
      <-> mission_ids ⊆ S)
  /\ (forall (rule : Live.EntryRule SC2MOGenMission) (S T : gset SC2MOGenMission),
      S ⊆ T -> Live.is_fulfilled rule S = true -> Live.is_fulfilled rule T = true)
  /\ (forall (d : Data.RuleData) (S T : gset Z),
      S ⊆ T -> Data.is_fulfilled d S = true -> Data.is_fulfilled d T = true).
Proof.
  split; [|split; [|split]].
  - intros ms vr S. simpl. apply bool_decide_eq_true.
  - intros ms vr S. simpl. apply bool_decide_eq_true.
  - intros rule S T. apply live_is_fulfilled_mono.
  - intros d S T. apply data_is_fulfilled_mono.
Qed.

(** ** Compilation of the live rules to predicates *)
Section Predicates.
Context {SC2MOGenMission : Type} `{Countable SC2MOGenMission}.
Variable beat_item : SC2MOGenMission -> string.
Variable CollectionState : Type.
Variable has : CollectionState -> string -> Z -> bool.
Variable has_all : CollectionState -> list string -> Z -> bool.

Local Abbreviation EntryRule := (Live.EntryRule SC2MOGenMission).
Local Abbreviation to_lambda := (Live.to_lambda beat_item CollectionState has has_all).

Lemma bool_eq_bool_decide (b : bool) (P : Prop) `{!Decision P} :
  (b = true <-> P) -> b = bool_decide P.
Proof.
  intros HbP. destruct b.
  - symmetry. apply bool_decide_eq_true. by apply HbP.
  - symmetry. apply bool_decide_eq_false. intros HP. by apply HbP in HP.
Qed.

(** C2. The predicate and the set-based evaluation agree: on a collection
    state that holds the beat item of exactly the missions of a set [S],
    and whose [has_all] is [has] on every item, the predicate compiled
    from a rule for a player returns what [is_fulfilled] returns on [S]. *)
Theorem lambda_agrees_with_sets (rule : EntryRule) (player : Z)
    (state : CollectionState) (S : gset SC2MOGenMission) :
  (forall m, has state (beat_item m) player = true <-> m ∈ S) ->
  (forall tokens,
      has_all state tokens player = true
      <-> forall token, token ∈ tokens -> has state token player = true) ->
  to_lambda rule player state = Live.is_fulfilled rule S.
Proof.
  intros Hhas Hall.
  induction rule as [ms vr|ms t vr|rules t IH] using EntryRule_nested_ind; simpl.
  - apply bool_eq_bool_decide. rewrite Hall. split.
    + intros Htokens m Hm. apply Hhas, Htokens.
      apply list_elem_of_In, in_map, list_elem_of_In. by apply elem_of_elements.
    + intros Hsub token Htoken.
      apply list_elem_of_In, in_map_iff in Htoken as (m & <- & Hm).
      apply Hhas, Hsub. by apply elem_of_elements, list_elem_of_In.
  - f_equal.
    rewrite (sum_b2z_filter (fun m => has state (beat_item m) player)
               (fun m => m ∈ S) (elements ms) Hhas).
    by rewrite size_intersection_filter.
  - f_equal. rewrite map_map. apply sum_b2z_ext.
    eapply Forall_impl; [exact IH|]. by intros r ->.
Qed.
End Predicates.

(** ** Parsing *)
Section ForEach.
Context {A B : Type}.

Lemma for_each_ext (f g : A -> result B) (l : list A) :
  Forall (fun x => f x = g x) l -> for_each f l = for_each g l.
Proof.
  induction 1 as [|x l Hx _ IH]; simpl; [done|]. by rewrite Hx, IH.
Qed.

Lemma for_each_raises (f : A -> result B) (l : list A) (x : A) (e : exn) :
  In x l -> f x = Raise e -> exists e', for_each f l = Raise e'.
Proof.
  intros Hx Hfx. induction l as [|y l IH]; [done|]. simpl.
  destruct (f y) as [b|e'] eqn:Hfy; simpl; [|by exists e'].
  destruct Hx as [->|Hx]; [congruence|].
  destruct (IH Hx) as (e' & ->). by exists e'.
Qed.

Lemma for_each_Raise (f : A -> result B) (l : list A) (e : exn) :
  for_each f l = Raise e -> exists x, In x l /\ f x = Raise e.
Proof.
  induction l as [|y l IH]; simpl; [done|].
  destruct (f y) as [b|e'] eqn:Hfy; simpl.
  - destruct (for_each f l) as [ys|e'] eqn:Hl; simpl; [done|].
    intros [= ->]. destruct (IH eq_refl) as (x & Hx & Hfx). exists x. auto.
  - intros [= ->]. exists y. auto.
Qed.

Lemma for_each_Ok (f : A -> result B) (l : list A) (k : list B) :
  for_each f l = Ok k <-> Forall2 (fun x y => f x = Ok y) l k.
Proof.
  revert k. induction l as [|x l IH]; intros k; simpl.
  - split; [intros [= <-]; constructor|by inversion 1].
  - destruct (f x) as [y|e] eqn:Hfx; simpl.
    + destruct (for_each f l) as [ys|e] eqn:Hl; simpl.
      * split.
        -- intros [= <-]. constructor; [done|]. by apply IH.
        -- inversion 1 as [|? y' ? ys' Hy Hys]; subst.
           apply IH in Hys. congruence.
      * split; [done|].
        inversion 1 as [|? y' ? ys' Hy Hys]; subst. by apply IH in Hys.
    + split; [done|]. inversion 1; congruence.
Qed.

Lemma for_each_map {C} (f : A -> result B) (g : C -> A) (l : list C) :
  for_each f (map g l) = for_each (fun x => f (g x)) l.
Proof. induction l as [|x l IH]; simpl; [done|]. by rewrite IH. Qed.
End ForEach.

Section Parsing.
Import Data.

Lemma parse_rule_ext (parse parse' : value -> result ParsedRuleData) rule_data :
  parse rule_data = parse' rule_data ->
  parse_rule parse rule_data = parse_rule parse' rule_data.
Proof.
  intros Heq. unfold parse_rule.
  destruct (contains "sub_rules" rule_data) as [[]|]; simpl; by rewrite ?Heq.
Qed.

Lemma depth_dict_get entries key v :
  dict_get entries key = Some v -> (depth v < depth (VDict entries))%nat.
Proof.
  simpl. induction entries as [|[k w] entries IH]; simpl; [done|].
  destruct (String.eqb k key).
  - intros [= ->]. lia.
  - intros Hv. apply IH in Hv. lia.
Qed.

Lemma depth_item items x :
  In x items -> (depth x < depth (VList items))%nat.
Proof.
  simpl. induction items as [|y items IH]; simpl; [done|].
  intros [->|Hx]; [lia|]. apply IH in Hx. lia.
Qed.

Lemma depth_iter v items x :
  iter v = Ok items -> In x items -> (depth x <= depth v)%nat.
Proof.
  destruct v as [n|s|l|entries]; simpl; try done.
  - intros [= <-] Hx. apply in_map_iff in Hx as (c & <- & _). done.
  - intros [= <-] Hx. pose proof (depth_item _ _ Hx) as Hlt. simpl in Hlt. lia.
  - intros [= <-] Hx. apply in_map_iff in Hx as (c & <- & _). simpl. lia.
Qed.

(** One call of [parse_from_dict], with [parse] for the recursive calls. *)
Local Abbreviation parse_body parse data :=
  (amount ← getitem data "amount";
   rules ← getitem data "sub_rules";
   rules ← iter rules;
   sub_rules ← for_each (parse_rule parse) rules;
   Ok (SubRuleRuleData sub_rules amount)).

Lemma parse_body_ext (parse parse' : value -> result ParsedRuleData) data :
  (forall x, (depth x < depth data)%nat -> parse x = parse' x) ->
  parse_body parse data = parse_body parse' data.
Proof.
  intros Heq.
  destruct data as [n|s|l|entries]; try done. simpl.
  destruct (dict_get entries "amount") as [amount|]; simpl; [|done].
  destruct (dict_get entries "sub_rules") as [rules|] eqn:Hrules; simpl; [|done].
  destruct (iter rules) as [items|] eqn:Hiter; simpl; [|done].
  erewrite for_each_ext; [done|].
  apply Forall_forall. intros x Hx. apply list_elem_of_In in Hx.
  apply parse_rule_ext, Heq.
  pose proof (depth_dict_get _ _ _ Hrules).
  pose proof (depth_iter _ _ _ Hiter Hx). lia.
Qed.

(** Any bound above the depth of the payload gives the same result. *)
Lemma parse_from_dict_upto_stable n m data :
  (depth data < n)%nat -> (depth data < m)%nat ->
  parse_from_dict_upto n data = parse_from_dict_upto m data.
Proof.
  revert m data. induction n as [|n IH]; intros m data Hn Hm; [lia|].
  destruct m as [|m]; [lia|]. simpl.
  apply parse_body_ext. intros x Hx. apply IH; lia.
Qed.

(** The equation of [parse_from_dict]: the body of the method, as
    written, with the method itself at the recursive call. *)
Lemma parse_from_dict_eq data :
  parse_from_dict data = parse_body parse_from_dict data.
Proof.
  unfold parse_from_dict at 1. simpl.
  apply parse_body_ext. intros x Hx.
  unfold parse_from_dict. apply parse_from_dict_upto_stable; lia.
Qed.

Lemma parse_rule_dict parse entries :
  parse_rule parse (VDict entries)
  = if has_key entries "sub_rules" then parse (VDict entries)
    else if has_key entries "amount" then CountMissionsRuleData_kwargs entries
    else BeatMissionsRuleData_kwargs entries.
Proof.
  unfold parse_rule. simpl.
  by destruct (has_key entries "sub_rules"), (has_key entries "amount").
Qed.

Lemma all_fields_In fields kwargs key :
  all_fields fields kwargs = true -> In key (map fst kwargs) -> In key fields.
Proof.
  unfold all_fields. rewrite forallb_forall. intros Hall Hkey.
  apply in_map_iff in Hkey as (kv & <- & Hkv).
  apply Hall, existsb_exists in Hkv as (field & Hfield & Heq).
  apply String.eqb_eq in Heq. by rewrite Heq.
Qed.

Lemma all_fields_intro fields kwargs :
  (forall key, In key (map fst kwargs) -> In key fields) ->
  all_fields fields kwargs = true.
Proof.
  intros Hkeys. apply forallb_forall. intros kv Hkv.
  apply existsb_exists. exists (fst kv). split; [|apply String.eqb_refl].
  apply Hkeys, in_map, Hkv.
Qed.

Lemma BeatMissionsRuleData_kwargs_Ok kwargs d :
  BeatMissionsRuleData_kwargs kwargs = Ok d
  <-> exists mission_ids visual_reqs,
      d = BeatMissionsRuleData mission_ids visual_reqs
      /\ dict_get kwargs "mission_ids" = Some mission_ids
      /\ dict_get kwargs "visual_reqs" = Some visual_reqs
      /\ forall key, In key (map fst kwargs) ->
                     In key ["mission_ids"; "visual_reqs"]%string.
Proof.
  unfold BeatMissionsRuleData_kwargs. split.
  - destruct (all_fields _ kwargs) eqn:Hall; [|done].
    destruct (dict_get kwargs "mission_ids") as [m|]; [|done].
    destruct (dict_get kwargs "visual_reqs") as [v|]; [|done].
    intros [= <-]. exists m, v. repeat split; try done.
    intros key. by apply all_fields_In.
  - intros (m & v & -> & -> & -> & Hkeys). by rewrite all_fields_intro.
Qed.

Lemma CountMissionsRuleData_kwargs_Ok kwargs d :
  CountMissionsRuleData_kwargs kwargs = Ok d
  <-> exists mission_ids amount visual_reqs,
      d = CountMissionsRuleData mission_ids amount visual_reqs
      /\ dict_get kwargs "mission_ids" = Some mission_ids
      /\ dict_get kwargs "amount" = Some amount
      /\ dict_get kwargs "visual_reqs" = Some visual_reqs
      /\ forall key, In key (map fst kwargs) ->
                     In key ["mission_ids"; "amount"; "visual_reqs"]%string.
Proof.
  unfold CountMissionsRuleData_kwargs. split.
  - destruct (all_fields _ kwargs) eqn:Hall; [|done].
    destruct (dict_get kwargs "mission_ids") as [m|]; [|done].
    destruct (dict_get kwargs "amount") as [a|]; [|done].
    destruct (dict_get kwargs "visual_reqs") as [v|]; [|done].
    intros [= <-]. exists m, a, v. repeat split; try done.
    intros key. by apply all_fields_In.
  - intros (m & a & v & -> & -> & -> & -> & Hkeys). by rewrite all_fields_intro.
Qed.

Lemma malformed_leaf_not_Ok fields kwargs :
  Malformed.leaf fields kwargs ->
  (forall field, In field fields -> is_Some (dict_get kwargs field)) ->
  (forall key, In key (map fst kwargs) -> In key fields) ->
  False.
Proof.
  intros [(field & Hfield & Hnone)|(key & Hkey & Hnot)] Hall Hkeys.
  - destruct (Hall field Hfield) as [v Hv]. congruence.
  - by apply Hnot, Hkeys.
Qed.

Lemma malformed_beat_raises kwargs :
  Malformed.leaf ["mission_ids"; "visual_reqs"]%string kwargs ->
  BeatMissionsRuleData_kwargs kwargs = Raise TypeError.
Proof.
  intros Hleaf.
  destruct (BeatMissionsRuleData_kwargs kwargs) as [d|e] eqn:Hk.
  - apply BeatMissionsRuleData_kwargs_Ok in Hk as (m & v & _ & Hm & Hv & Hkeys).
    destruct (malformed_leaf_not_Ok _ _ Hleaf); [|done].
    intros field [<-|[<-|[]]]; eauto.
  - revert Hk. unfold BeatMissionsRuleData_kwargs.
    repeat case_match; congruence.
Qed.

Lemma malformed_count_raises kwargs :
  Malformed.leaf ["mission_ids"; "amount"; "visual_reqs"]%string kwargs ->
  CountMissionsRuleData_kwargs kwargs = Raise TypeError.
Proof.
  intros Hleaf.
  destruct (CountMissionsRuleData_kwargs kwargs) as [d|e] eqn:Hk.
  - apply CountMissionsRuleData_kwargs_Ok in Hk as (m & a & v & _ & Hm & Ha & Hv & Hkeys).
    destruct (malformed_leaf_not_Ok _ _ Hleaf); [|done].
    intros field [<-|[<-|[<-|[]]]]; eauto.
  - revert Hk. unfold CountMissionsRuleData_kwargs.
    repeat case_match; congruence.
Qed.

(** A nested payload that raises makes the whole parse raise. *)
Lemma parse_from_dict_nested_raises entries rules x e :
  dict_get entries "sub_rules" = Some (VList rules) ->
  In x rules ->
  parse_rule parse_from_dict x = Raise e ->
  exists e', parse_from_dict (VDict entries) = Raise e'.
Proof.
  intros Hrules Hx Hraise. rewrite parse_from_dict_eq. simpl.
  destruct (dict_get entries "amount") as [amount|]; simpl; [|by eexists].
  rewrite Hrules. simpl.
  destruct (for_each_raises _ _ _ _ Hx Hraise) as (e' & ->). by exists e'.
Qed.

Lemma malformed_payload_not_parsed data :
  Malformed.payload data -> exists e, parse_from_dict data = Raise e.
Proof.
  induction 1 as [entries Hamount|entries Hrules
                 |entries rules nested Hrules Hin Hsub _ [e IH]
                 |entries rules nested Hrules Hin Hsub Hamount Hleaf
                 |entries rules nested Hrules Hin Hsub Hamount Hleaf].
  - rewrite parse_from_dict_eq. simpl. rewrite Hamount. by eexists.
  - rewrite parse_from_dict_eq. simpl. rewrite Hrules.
    destruct (dict_get entries "amount"); by eexists.
  - eapply parse_from_dict_nested_raises; [done..|].
    rewrite parse_rule_dict, Hsub. exact IH.
  - eapply parse_from_dict_nested_raises; [done..|].
    rewrite parse_rule_dict, Hsub, Hamount. by apply malformed_count_raises.
  - eapply parse_from_dict_nested_raises; [done..|].
    rewrite parse_rule_dict, Hsub, Hamount. by apply malformed_beat_raises.
Qed.

Lemma parse_rule_Ok_mono (parse parse' : value -> result ParsedRuleData) x d :
  (forall d', parse x = Ok d' -> parse' x = Ok d') ->
  parse_rule parse x = Ok d -> parse_rule parse' x = Ok d.
Proof.
  intros Hmono. unfold parse_rule.
  destruct (contains "sub_rules" x) as [[]|]; simpl; [apply Hmono|done..].
Qed.

Lemma for_each_Ok_mono {A B} (f g : A -> result B) (l : list A) (ys : list B) :
  (forall x y, f x = Ok y -> g x = Ok y) ->
  for_each f l = Ok ys -> for_each g l = Ok ys.
Proof.
  intros Hmono. rewrite !for_each_Ok.
  induction 1 as [|x y l ys Hx _ IH]; constructor; auto.
Qed.

(** A parse that succeeds within some number of frames succeeds, with the
    same rule, within any larger number. *)
Lemma parse_from_dict_upto_Ok_mono (n m : nat) (data : value) (d : ParsedRuleData) :
  (n <= m)%nat ->
  parse_from_dict_upto n data = Ok d -> parse_from_dict_upto m data = Ok d.
Proof.
  revert m data d. induction n as [|n IH]; intros m data d Hnm; [done|].
  destruct m as [|m]; [lia|]. simpl.
  destruct (getitem data "amount") as [amount|]; simpl; [|done].
  destruct (getitem data "sub_rules") as [rules|]; simpl; [|done].
  destruct (iter rules) as [items|]; simpl; [|done].
  destruct (for_each (parse_rule (parse_from_dict_upto n)) items)
    as [sub_rules|] eqn:Hloop; simpl; [|done].
  intros [= <-].
  assert (Hloop' : for_each (parse_rule (parse_from_dict_upto m)) items = Ok sub_rules).
  { revert Hloop. apply for_each_Ok_mono.
    intros x y. apply parse_rule_Ok_mono. intros d'. apply IH. lia. }
  by rewrite Hloop'.
Qed.

(** Frames beyond the nesting depth of the payload change nothing. *)
Lemma parse_from_dict_upto_enough (limit : nat) (data : value) :
  (depth data < limit)%nat -> parse_from_dict_upto limit data = parse_from_dict data.
Proof.
  intros Hdepth. unfold parse_from_dict. apply parse_from_dict_upto_stable; lia.
Qed.

Lemma parse_from_dict_upto_Ok (limit : nat) (data : value) (d : ParsedRuleData) :
  parse_from_dict_upto limit data = Ok d -> parse_from_dict data = Ok d.
Proof.
  intros Hparse.
  rewrite <- (parse_from_dict_upto_enough (Nat.max limit (S (depth data)))) by lia.
  apply (parse_from_dict_upto_Ok_mono limit); [lia|done].
Qed.

(** C8. Malformed payloads fail fast: when the mapping lacks ['amount']
    or ['sub_rules'], or when a nested payload, at any depth, lacks a
    field of the dataclass the dispatch selects for it or carries a key
    that is no field of it, [parse_from_dict] raises and returns no rule,
    whatever the number of frames the recursion limit leaves it. *)
Theorem malformed_payload_raises (limit : nat) (data : value) :
  Malformed.payload data ->
  (exists e, parse_from_dict_upto limit data = Raise e)
  /\ (forall d, parse_from_dict_upto limit data <> Ok d).
Proof.
  intros [e He]%malformed_payload_not_parsed.
  assert (Hnone : forall d, parse_from_dict_upto limit data <> Ok d).
  { intros d Hparse%parse_from_dict_upto_Ok. congruence. }
  split; [|done].
  destruct (parse_from_dict_upto limit data) as [d|e']; [by destruct (Hnone d)|].
  by exists e'.
Qed.

(** What a successful parse returns: a sub-rule with the amount of the
    mapping and one parsed child per nested payload, in order. *)
Lemma parse_from_dict_Ok data d :
  parse_from_dict data = Ok d ->
  exists amount rules items sub_rules,
    d = SubRuleRuleData sub_rules amount
    /\ getitem data "amount" = Ok amount
    /\ getitem data "sub_rules" = Ok rules
    /\ iter rules = Ok items
    /\ Forall2 (fun x rule => parse_rule parse_from_dict x = Ok rule) items sub_rules.
Proof.
  rewrite parse_from_dict_eq.
  destruct (getitem data "amount") as [amount|] eqn:Hamount; simpl; [|done].
  destruct (getitem data "sub_rules") as [rules|] eqn:Hrules; simpl; [|done].
  destruct (iter rules) as [items|] eqn:Hiter; simpl; [|done].
  destruct (for_each _ items) as [sub_rules|] eqn:Hloop; simpl; [|done].
  intros [= <-]. exists amount, rules, items, sub_rules.
  split_and!; try done. by apply for_each_Ok.
Qed.

(** C6. Structural dispatch. The children of a parsed sub-rule are the
    nested payloads parsed one by one, in order; a nested mapping with a
    ['sub_rules'] key is parsed by [parse_from_dict] itself, into a
    sub-rule; otherwise one with an ['amount'] key becomes a
    CountMissionsRuleData, and any other a BeatMissionsRuleData, whose
    fields are the values the mapping binds to their names. The payload
    of scenario 5 parses to a sub-rule of amount 1 with one BeatMissions
    child, whose mission ids are the set {5}. *)
Theorem structural_dispatch :
  (forall entries amount rules,
      dict_get entries "amount" = Some amount ->
      dict_get entries "sub_rules" = Some (VList rules) ->
      parse_from_dict (VDict entries)
      = (sub_rules ← for_each (parse_rule parse_from_dict) rules;
         Ok (SubRuleRuleData sub_rules amount)))
  /\ (forall nested,
      has_key nested "sub_rules" = true ->
      parse_rule parse_from_dict (VDict nested) = parse_from_dict (VDict nested)
      /\ forall d, parse_from_dict (VDict nested) = Ok d ->
                   exists sub_rules amount, d = SubRuleRuleData sub_rules amount)
  /\ (forall nested d,
      has_key nested "sub_rules" = false ->
      has_key nested "amount" = true ->
      parse_rule parse_from_dict (VDict nested) = Ok d
      <-> exists mission_ids amount visual_reqs,
          d = CountMissionsRuleData mission_ids amount visual_reqs
          /\ dict_get nested "mission_ids" = Some mission_ids
          /\ dict_get nested "amount" = Some amount
          /\ dict_get nested "visual_reqs" = Some visual_reqs
          /\ forall key, In key (map fst nested) ->
                         In key ["mission_ids"; "amount"; "visual_reqs"]%string)
  /\ (forall nested d,
      has_key nested "sub_rules" = false ->
      has_key nested "amount" = false ->
      parse_rule parse_from_dict (VDict nested) = Ok d
      <-> exists mission_ids visual_reqs,
          d = BeatMissionsRuleData mission_ids visual_reqs
          /\ dict_get nested "mission_ids" = Some mission_ids
          /\ dict_get nested "visual_reqs" = Some visual_reqs
          /\ forall key, In key (map fst nested) ->
                         In key ["mission_ids"; "visual_reqs"]%string)
  /\ parse_from_dict Scenario.payload
     = Ok (SubRuleRuleData
             [BeatMissionsRuleData (VList [VInt 5]) (VList [VInt 5])] (VInt 1))
  /\ typed (SubRuleRuleData
              [BeatMissionsRuleData (VList [VInt 5]) (VList [VInt 5])] (VInt 1))
     = Some (SubRuleRuleData [BeatMissionsRuleData {[5]} [inr 5]] 1).
Proof.
  split; [|split; [|split; [|split; [|split]]]].
  - intros entries amount rules Hamount Hrules.
    rewrite parse_from_dict_eq. simpl. by rewrite Hamount, Hrules.
  - intros nested Hsub. rewrite parse_rule_dict, Hsub. split; [done|].
    intros d (amount & _ & _ & sub_rules & -> & _)%parse_from_dict_Ok. eauto.
  - intros nested d Hsub Hamount. rewrite parse_rule_dict, Hsub, Hamount.
    apply CountMissionsRuleData_kwargs_Ok.
  - intros nested d Hsub Hamount. rewrite parse_rule_dict, Hsub, Hamount.
    apply BeatMissionsRuleData_kwargs_Ok.
  - reflexivity.
  - vm_compute. reflexivity.
Qed.

(** *** Round trip *)

Lemma for_each_Ok_id {A} (f : A -> result A) (l : list A) :
  Forall (fun x => f x = Ok x) l -> for_each f l = Ok l.
Proof.
  intros Hl. apply for_each_Ok. induction Hl; by constructor.
Qed.

(** A serialized rule, met as a nested payload, parses back to the rule. *)
Lemma parse_rule_to_payload (d : ParsedRuleData) :
  parse_rule parse_from_dict (to_payload d) = Ok d.
Proof.
  induction d as [m v|m a v|sub_rules amount IH] using rule_data_nested_ind.
  - reflexivity.
  - reflexivity.
  - simpl to_payload. rewrite parse_rule_dict.
    change (has_key _ "sub_rules") with true. cbv iota.
    rewrite parse_from_dict_eq.
    change (getitem _ "amount") with (Ok amount).
    change (getitem _ "sub_rules") with (Ok (VList (map to_payload sub_rules))).
    simpl. rewrite for_each_map, for_each_Ok_id; done.
Qed.

Lemma parse_from_dict_to_payload (sub_rules : list ParsedRuleData) (amount : value) :
  parse_from_dict (to_payload (SubRuleRuleData sub_rules amount))
  = Ok (SubRuleRuleData sub_rules amount).
Proof.
  pose proof (parse_rule_to_payload (SubRuleRuleData sub_rules amount)) as Hparse.
  simpl to_payload in Hparse. by rewrite parse_rule_dict in Hparse.
Qed.

Lemma as_ids_of_ids (ids : gset Z) : as_ids (of_ids ids) = Some ids.
Proof.
  unfold as_ids, of_ids.
  rewrite (mapM_fmap_Some as_int VInt (elements ids)) by done. simpl.
  destruct (decide (NoDup (elements ids))) as [_|Hdup].
  - by rewrite list_to_set_elements_L.
  - destruct Hdup. apply NoDup_elements.
Qed.

Lemma as_reqs_of_reqs (reqs : list str_or_int) : as_reqs (of_reqs reqs) = Some reqs.
Proof.
  unfold as_reqs, of_reqs. apply (mapM_fmap_Some as_req of_req). by intros [label|n].
Qed.

Lemma typed_untyped (d : RuleData) : typed (untyped d) = Some d.
Proof.
  induction d as [m v|m a v|sub_rules amount IH] using rule_data_nested_ind;
    cbn [typed untyped].
  - by rewrite as_ids_of_ids, as_reqs_of_reqs.
  - by rewrite as_ids_of_ids, as_reqs_of_reqs.
  - pose proof (mapM_fmap_Forall_Some typed untyped sub_rules IH) as Hrules.
    exact (f_equal (λ o, o ≫= (λ rules, Some (SubRuleRuleData rules amount))) Hrules).
Qed.

Lemma parse_from_dict_upto_S (n : nat) (data : value) :
  parse_from_dict_upto (S n) data
  = (amount ← getitem data "amount";
     rules ← getitem data "sub_rules";
     rules ← iter rules;
     sub_rules ← for_each (parse_rule (parse_from_dict_upto n)) rules;
     Ok (SubRuleRuleData sub_rules amount)).
Proof. reflexivity. Qed.

Lemma levels_child {I A R} (rules : list (rule_data I A R)) (rule : rule_data I A R) :
  rule ∈ rules -> (Shape.levels rule <= foldr Nat.max O (map Shape.levels rules))%nat.
Proof.
  induction 1 as [rule rules|rule rule' rules _ IH]; cbn [map foldr]; lia.
Qed.

(** A serialized rule, met as a nested payload, parses back to the rule
    when the frames left cover its levels of sub-rules. *)
Lemma parse_rule_upto_to_payload (d : ParsedRuleData) (limit : nat) :
  (Shape.levels d <= limit)%nat ->
  parse_rule (parse_from_dict_upto limit) (to_payload d) = Ok d.
Proof.
  revert limit.
  induction d as [m v|m a v|sub_rules amount IH] using rule_data_nested_ind;
    intros limit Hlevels.
  - reflexivity.
  - reflexivity.
  - cbn [Shape.levels] in Hlevels. destruct limit as [|limit]; [lia|].
    simpl to_payload. rewrite parse_rule_dict.
    change (has_key _ "sub_rules") with true. cbv iota.
    rewrite parse_from_dict_upto_S.
    change (getitem _ "amount") with (Ok amount).
    change (getitem _ "sub_rules") with (Ok (VList (map to_payload sub_rules))).
    simpl. rewrite for_each_map, for_each_Ok_id; [done|].
    apply Forall_forall. intros rule Hrule. rewrite Forall_forall in IH.
    apply IH; [done|]. pose proof (levels_child sub_rules rule Hrule). lia.
Qed.

Lemma levels_untyped (d : RuleData) : Shape.levels (untyped d) = Shape.levels d.
Proof.
  induction d as [m v|m a v|sub_rules amount IH] using rule_data_nested_ind;
    [done..|].
  cbn [untyped Shape.levels]. f_equal. rewrite map_map.
  induction IH as [|rule rules Hrule _ IHrules]; [done|].
  cbn [map foldr]. by rewrite Hrule, IHrules.
Qed.

(** The chain of [limit] sub-rules above an empty one takes one frame
    more than [limit]. *)
Lemma nested_exhausts_frames (limit : nat) :
  parse_from_dict_upto limit (serialize (Cases.nested limit)) = Raise RecursionError.
Proof.
  induction limit as [|limit IH]; [done|].
  unfold serialize in *. cbn [Cases.nested untyped map to_payload].
  rewrite parse_from_dict_upto_S.
  change (getitem _ "amount") with (Ok (VInt 1)).
  change (getitem _ "sub_rules")
    with (Ok (VList [to_payload (untyped (Cases.nested limit))])).
  cbn [iter mbind result_bind for_each].
  assert (Hchild : parse_rule (parse_from_dict_upto limit)
                     (to_payload (untyped (Cases.nested limit)))
                   = Raise RecursionError).
  { destruct limit; simpl to_payload; by rewrite parse_rule_dict. }
  by rewrite Hchild.
Qed.

End Parsing.

(** ** Tooltips *)
Section Tooltips.
Import Data.

Lemma append_assoc (s1 s2 s3 : string) : (s1 +:+ s2) +:+ s3 = s1 +:+ (s2 +:+ s3).
Proof.
  induction s1 as [|c s1 IH]; [done|].
  change (String c ((s1 +:+ s2) +:+ s3) = String c (s1 +:+ s2 +:+ s3)).
  by rewrite IH.
Qed.

(** Joining [k] empty strings by a space leaves the [k - 1] spaces. *)
Lemma join_empty_strings (k : nat) :
  join " " (repeat EmptyString k) = spaces (pred k).
Proof.
  unfold join. destruct k as [|k]; [done|]. simpl pred.
  induction k as [|k IH]; [done|].
  change (String.concat " " (repeat EmptyString (S (S k))))
    with (EmptyString +:+ " " +:+ String.concat " " (repeat EmptyString (S k))).
  by rewrite IH.
Qed.

Lemma map_range_const {A} (a : A) (n : Z) :
  map (fun _ => a) (range n) = repeat a (Z.to_nat n).
Proof.
  unfold range. rewrite map_map. generalize 0%nat.
  induction (Z.to_nat n) as [|k IH]; intros start; simpl; [done|].
  by rewrite IH.
Qed.

Lemma indent_of_spaces (indents : Z) :
  indent_of indents = spaces (Z.to_nat (Z.max (indents - 1) 0)).
Proof.
  unfold indent_of. rewrite map_range_const, join_empty_strings.
  f_equal. lia.
Qed.

Lemma spaces_two_more (k : nat) : spaces (2 + k) = "  " +:+ spaces k.
Proof. reflexivity. Qed.

Lemma for_each_labels (missions : gmap Z SC2Mission) reqs labels :
  Forall2 (fun req label => req_label missions req = Ok label) reqs labels ->
  for_each (req_label missions) reqs = Ok labels.
Proof. apply for_each_Ok. Qed.

(** The text [tooltip] builds after a heading: the first bullet opened
    by the heading line, the others by the separator of the join. *)
Lemma bullets_join (sep : string) (items : list string) :
  items <> [] ->
  sep +:+ join sep items
  = String.concat EmptyString (map (fun item => sep +:+ item) items).
Proof.
  unfold join. induction items as [|x [|y items] IH]; [done|done|]; intros _.
  specialize (IH ltac:(done)).
  change (String.concat sep (x :: y :: items))
    with (x +:+ sep +:+ String.concat sep (y :: items)).
  change (String.concat EmptyString (map (fun item => sep +:+ item) (x :: y :: items)))
    with ((sep +:+ x) +:+ EmptyString
          +:+ String.concat EmptyString (map (fun item => sep +:+ item) (y :: items))).
  rewrite <- IH.
  change (EmptyString +:+ sep +:+ String.concat sep (y :: items))
    with (sep +:+ String.concat sep (y :: items)).
  by rewrite append_assoc.
Qed.

Lemma BeatMissionsRuleData_tooltip_one missions req label indents :
  req_label missions req = Ok label ->
  BeatMissionsRuleData_tooltip [req] indents missions = Ok ("Beat " +:+ label).
Proof.
  intros Hlabel. unfold BeatMissionsRuleData_tooltip. simpl. by rewrite Hlabel.
Qed.

Lemma BeatMissionsRuleData_tooltip_many missions reqs labels indents :
  length reqs <> 1%nat ->
  Forall2 (fun req label => req_label missions req = Ok label) reqs labels ->
  BeatMissionsRuleData_tooltip reqs indents missions
  = Ok (("Beat all of these:" +:+ nl +:+ indent_of indents +:+ "- ")
        +:+ join (nl +:+ indent_of indents +:+ "- ") labels).
Proof.
  intros Hlen Hlabels. unfold BeatMissionsRuleData_tooltip, len.
  destruct (Z.of_nat (length reqs) =? 1) eqn:Hone; [lia|].
  by rewrite (for_each_labels _ _ _ Hlabels).
Qed.

(** C7. The BeatMissions tooltip: one visual requirement renders as
    "Beat" and its label; two or more render as the heading
    "Beat all of these:" followed, for each requirement in order, by a
    newline, the indent, "- " and its label. For the two missions Alpha
    and Beta, at an indent of two spaces (the indent of level 3, and of
    no other level), the text is the heading and the two bullets
    "  - Alpha" and "  - Beta", one per line. *)
Theorem beat_missions_tooltip :
  (forall mission_ids req label indents missions,
      req_label missions req = Ok label ->
      tooltip (BeatMissionsRuleData mission_ids [req]) indents missions
      = Ok ("Beat " +:+ label))
  /\ (forall mission_ids reqs labels indents missions,
      (2 <= length reqs)%nat ->
      Forall2 (fun req label => req_label missions req = Ok label) reqs labels ->
      tooltip (BeatMissionsRuleData mission_ids reqs) indents missions
      = Ok ("Beat all of these:"
            +:+ String.concat EmptyString
                  (map (fun label => (nl +:+ indent_of indents +:+ "- ") +:+ label)
                       labels)))
  /\ (forall indents,
      indent_of indents = "  "%string ->
      tooltip (BeatMissionsRuleData {[1; 2]} [inr 1; inr 2]) indents Scenario.missions
      = Ok ("Beat all of these:" +:+ nl +:+ "  - Alpha" +:+ nl +:+ "  - Beta"))
  /\ (forall indents, indent_of indents = "  "%string <-> indents = 3).
Proof.
  split; [|split; [|split]].
  - intros ids req label indents missions. apply BeatMissionsRuleData_tooltip_one.
  - intros ids reqs labels indents missions Hlen Hlabels. cbn [tooltip].
    rewrite (BeatMissionsRuleData_tooltip_many _ _ labels) by (done || lia).
    rewrite append_assoc, bullets_join; [done|].
    intros ->. apply Forall2_length in Hlabels. simpl in Hlabels. lia.
  - intros indents Hindent. cbn [tooltip].
    unfold BeatMissionsRuleData_tooltip. rewrite Hindent. reflexivity.
  - intros indents. split; [|by intros ->].
    rewrite indent_of_spaces. intros Hspaces.
    assert (Hk : Z.to_nat (Z.max (indents - 1) 0) = 2%nat); [|lia].
    destruct (Z.to_nat _) as [|[|[|k]]]; done.
Qed.

Lemma indent_of_positive (indents : Z) :
  1 <= indents -> indent_of indents = spaces (Z.to_nat (indents - 1)).
Proof. intros Hpos. rewrite indent_of_spaces. f_equal. lia. Qed.

Lemma indent_of_nested (indents : Z) :
  1 <= indents -> indent_of (indents + 2) = "  " +:+ indent_of indents.
Proof.
  intros Hpos. rewrite !indent_of_positive by lia.
  replace (Z.to_nat (indents + 2 - 1)) with (2 + Z.to_nat (indents - 1))%nat by lia.
  apply spaces_two_more.
Qed.

Lemma CountMissionsRuleData_tooltip_many missions mission_ids amount reqs labels indents :
  length reqs <> 1%nat ->
  Forall2 (fun req label => req_label missions req = Ok label) reqs labels ->
  CountMissionsRuleData_tooltip mission_ids amount reqs indents missions
  = Ok (("Beat "
         +:+ (if amount =? Z.of_nat (size mission_ids) then "all" else str amount)
         +:+ (if amount =? 1 then " mission from:" else " missions from:")
         +:+ nl +:+ indent_of indents +:+ "- ")
        +:+ join (nl +:+ indent_of indents +:+ "- ") labels).
Proof.
  intros Hlen Hlabels. unfold CountMissionsRuleData_tooltip, len.
  destruct (Z.of_nat (length reqs) =? 1) eqn:Hone; [lia|].
  rewrite (for_each_labels _ _ _ Hlabels).
  by destruct (amount =? 1).
Qed.

Lemma SubRuleRuleData_tooltip_many missions sub_rules amount parts indents :
  ~ (amount = len sub_rules /\ amount = 1) ->
  Forall2 (fun rule part => tooltip rule (indents + 2) missions = Ok part)
    sub_rules parts ->
  tooltip (SubRuleRuleData sub_rules amount) indents missions
  = Ok (("Fulfill "
         +:+ (if amount =? len sub_rules then "all" else str amount)
         +:+ " of these conditions:" +:+ nl +:+ indent_of indents +:+ "- ")
        +:+ join (nl +:+ indent_of indents +:+ "- ") parts).
Proof.
  intros Hmany Hparts.
  apply (for_each_Ok (fun rule => tooltip rule (indents + 2) missions)) in Hparts.
  change (tooltip (SubRuleRuleData sub_rules amount) indents missions)
    with (if amount =? len sub_rules then
            if amount =? 1 then
              match sub_rules with
              | rule :: _ => tooltip rule indents missions
              | [] => Raise IndexError
              end
            else
              parts ← for_each (fun rule => tooltip rule (indents + 2) missions) sub_rules;
              Ok (conditions "all" (indent_of indents) parts)
          else
            parts ← for_each (fun rule => tooltip rule (indents + 2) missions) sub_rules;
            Ok (conditions (str amount) (indent_of indents) parts)).
  rewrite Hparts.
  destruct (amount =? len sub_rules) eqn:Hall; [|done].
  destruct (amount =? 1) eqn:Hone; [lia|done].
Qed.

(** C10. The indent is one space short of the indent level: joining
    [indents] empty strings by a space gives [max (indents - 1) 0]
    spaces, that is [indents - 1] spaces from level 1 on and none at
    levels 0 and 1. The bullets of the three tooltips rendered at level
    [indents >= 1] therefore start with [indents - 1] spaces, and the
    children of a sub-rule, rendered at [indents + 2], with two spaces
    more than those of their parent; at level 0, where the parent has no
    space to be short of, they gain one space only. *)
Theorem indent_one_space_short :
  (forall indents, indent_of indents = spaces (Z.to_nat (Z.max (indents - 1) 0)))
  /\ (forall indents, 1 <= indents -> indent_of indents = spaces (Z.to_nat (indents - 1)))
  /\ indent_of 0 = EmptyString
  /\ indent_of 1 = EmptyString
  /\ (forall indents, 1 <= indents -> indent_of (indents + 2) = "  " +:+ indent_of indents)
  /\ indent_of (0 + 2) = " " +:+ indent_of 0
  /\ (forall missions mission_ids reqs labels indents,
      1 <= indents ->
      length reqs <> 1%nat ->
      Forall2 (fun req label => req_label missions req = Ok label) reqs labels ->
      tooltip (BeatMissionsRuleData mission_ids reqs) indents missions
      = Ok (("Beat all of these:" +:+ nl +:+ spaces (Z.to_nat (indents - 1)) +:+ "- ")
            +:+ join (nl +:+ spaces (Z.to_nat (indents - 1)) +:+ "- ") labels))
  /\ (forall missions mission_ids amount reqs labels indents,
      1 <= indents ->
      length reqs <> 1%nat ->
      Forall2 (fun req label => req_label missions req = Ok label) reqs labels ->
      tooltip (CountMissionsRuleData mission_ids amount reqs) indents missions
      = Ok (("Beat "
             +:+ (if amount =? Z.of_nat (size mission_ids) then "all" else str amount)
             +:+ (if amount =? 1 then " mission from:" else " missions from:")
             +:+ nl +:+ spaces (Z.to_nat (indents - 1)) +:+ "- ")
            +:+ join (nl +:+ spaces (Z.to_nat (indents - 1)) +:+ "- ") labels))
  /\ (forall missions sub_rules amount parts indents,
      1 <= indents ->
      ~ (amount = len sub_rules /\ amount = 1) ->
      Forall2 (fun rule part => tooltip rule (indents + 2) missions = Ok part)
        sub_rules parts ->
      tooltip (SubRuleRuleData sub_rules amount) indents missions
      = Ok (("Fulfill "
             +:+ (if amount =? len sub_rules then "all" else str amount)
             +:+ " of these conditions:" +:+ nl
             +:+ spaces (Z.to_nat (indents - 1)) +:+ "- ")
            +:+ join (nl +:+ spaces (Z.to_nat (indents - 1)) +:+ "- ") parts)).
Proof.
  split_and!.
  - apply indent_of_spaces.
  - apply indent_of_positive.
  - reflexivity.
  - reflexivity.
  - apply indent_of_nested.
  - reflexivity.
  - intros missions ids reqs labels indents Hpos Hlen Hlabels. cbn [tooltip].
    rewrite <- (indent_of_positive indents Hpos).
    by apply BeatMissionsRuleData_tooltip_many.
  - intros missions ids amount reqs labels indents Hpos Hlen Hlabels. cbn [tooltip].
    rewrite <- (indent_of_positive indents Hpos).
    by apply CountMissionsRuleData_tooltip_many.
  - intros missions sub_rules amount parts indents Hpos Hmany Hparts.
    rewrite <- (indent_of_positive indents Hpos).
    by apply SubRuleRuleData_tooltip_many.
Qed.
End Tooltips.

(** ** The scenarios *)

(** C1 on scenario 3: the ids of the scenario's missions are distinct, and
    the rule and its slot data agree once Alpha is beaten. *)
Lemma conversion_fidelity_witness :
  (forall m1 m2 : positive,
      id (Scenario.mission m1) = id (Scenario.mission m2) -> m1 = m2)
  /\ Live.is_fulfilled Scenario.rule {[1%positive]}
     = Data.is_fulfilled (Live.to_slot_data Scenario.mission Scenario.rule)
         (set_map (fun m => id (Scenario.mission m)) ({[1%positive]} : gset positive)).
Proof.
  assert (Hinj : forall m1 m2 : positive,
             id (Scenario.mission m1) = id (Scenario.mission m2) -> m1 = m2).
  { intros m1 m2 Hid. simpl in Hid. by injection Hid. }
  split; [exact Hinj|].
  exact (conversion_fidelity Scenario.mission Scenario.rule {[1%positive]} Hinj).
Defined.

Lemma scenario_state_holds_beaten (m : positive) :
  Scenario.has {["Beat Alpha"%string]} (Scenario.beat_item m) 0 = true
  <-> m ∈ ({[1%positive]} : gset positive).
Proof.
  unfold Scenario.has. rewrite bool_decide_eq_true, !elem_of_singleton.
  unfold Scenario.beat_item. simpl.
  destruct m as [m|m|]; [| |done].
  - split; [|done]. by destruct m.
  - split; [|done]. by destruct m.
Qed.

Lemma scenario_has_all (state : gset string) (tokens : list string) :
  Scenario.has_all state tokens 0 = true
  <-> forall token, token ∈ tokens -> Scenario.has state token 0 = true.
Proof.
  unfold Scenario.has_all. rewrite forallb_forall.
  split; intros Hall token Htoken; apply Hall; by apply list_elem_of_In.
Qed.

(** C2 on scenario 3: a state that holds "Beat Alpha" only is consistent
    with the set of beaten missions {Alpha}. *)
Lemma lambda_agrees_with_sets_witness :
  (forall m : positive,
      Scenario.has {["Beat Alpha"%string]} (Scenario.beat_item m) 0 = true
      <-> m ∈ ({[1%positive]} : gset positive))
  /\ (forall tokens,
      Scenario.has_all {["Beat Alpha"%string]} tokens 0 = true
      <-> forall token,
          token ∈ tokens -> Scenario.has {["Beat Alpha"%string]} token 0 = true)
  /\ Live.to_lambda Scenario.beat_item (gset string) Scenario.has Scenario.has_all
       Scenario.rule 0 {["Beat Alpha"%string]}
     = Live.is_fulfilled Scenario.rule {[1%positive]}.
Proof.
  split; [exact scenario_state_holds_beaten|].
  split; [exact (scenario_has_all _)|].
  exact (lambda_agrees_with_sets Scenario.beat_item (gset string)
           Scenario.has Scenario.has_all Scenario.rule 0
           {["Beat Alpha"%string]} {[1%positive]}
           scenario_state_holds_beaten (scenario_has_all _)).
Defined.

(** C9 as stated fails at a target of 0: over one mission the constructor
    stores the threshold 0, which is at most 0 although the collection is
    not empty and the target is not negative. *)
Lemma degenerate_thresholds_zero_target :
  Live.target_amount_of
    (Live.CountMissionsEntryRule_init ({[1%positive]} : gset positive) 0 []) = Some 0
  /\ ~ (0 <= 0 <->
        size ({[1%positive]} : gset positive) = 0%nat \/ (0 < 0 /\ 0 <> -1)).
Proof.
  split.
  - unfold Live.CountMissionsEntryRule_init. by rewrite size_singleton.
  - intros [Hempty _].
    destruct Hempty as [Hsize|[Hneg _]]; [lia| |lia].
    by rewrite size_singleton in Hsize.
Qed.

(** C8 on scenario 5 without the [visual_reqs] of its child, with 1000
    frames left. *)
Lemma malformed_payload_raises_witness :
  Malformed.payload Scenario.truncated_payload
  /\ (exists e, Data.parse_from_dict_upto 1000 Scenario.truncated_payload = Raise e)
  /\ (forall d, Data.parse_from_dict_upto 1000 Scenario.truncated_payload <> Ok d).
Proof.
  assert (Hmalformed : Malformed.payload Scenario.truncated_payload).
  { eapply Malformed.nested_beat; [reflexivity|by left|reflexivity..|].
    left. exists "visual_reqs"%string. split; [|reflexivity].
    right. by left. }
  split; [exact Hmalformed|].
  exact (malformed_payload_raises 1000 Scenario.truncated_payload Hmalformed).
Defined.



(** * Further properties *)

(** ** Thresholds of the live rules *)
Section Thresholds.
Context {SC2MOGenMission : Type} `{Countable SC2MOGenMission}.

Local Abbreviation EntryRule := (Live.EntryRule SC2MOGenMission).

Lemma clamped_count_init (missions : gset SC2MOGenMission) (target : Z)
    (visual_reqs : list (string + SC2MOGenMission)) :
  Shape.clamped (Live.CountMissionsEntryRule_init missions target visual_reqs).
Proof.
  unfold Live.CountMissionsEntryRule_init.
  destruct (target =? -1) eqn:E1;
    destruct (Z.of_nat (size missions) <? target) eqn:E2; cbn [orb];
    constructor; lia.
Qed.

Lemma clamped_sub_rule_init (rules : list EntryRule) (target : Z) :
  Forall Shape.clamped rules ->
  Shape.clamped (Live.SubRuleEntryRule_init rules target).
Proof.
  intros Hrules. unfold Live.SubRuleEntryRule_init.
  destruct (target =? -1) eqn:E1;
    destruct (len rules <? target) eqn:E2; cbn [orb];
    constructor; (lia || done).
Qed.

(** X1. The constructors clamp, once and for all: a CountMissionsEntryRule
    stores no threshold above the number of its missions, a
    SubRuleEntryRule over clamped children none above the number of its
    children, and constructing the rule again from the threshold it stored
    gives the same rule. *)
Theorem constructors_clamp (missions : gset SC2MOGenMission) (rules : list EntryRule)
    (target : Z) (visual_reqs : list (string + SC2MOGenMission)) :
  Shape.clamped (Live.CountMissionsEntryRule_init missions target visual_reqs)
  /\ (Forall Shape.clamped rules ->
      Shape.clamped (Live.SubRuleEntryRule_init rules target))
  /\ (forall stored,
      Live.target_amount_of (Live.CountMissionsEntryRule_init missions target visual_reqs)
      = Some stored ->
      Live.CountMissionsEntryRule_init missions stored visual_reqs
      = Live.CountMissionsEntryRule_init missions target visual_reqs)
  /\ (forall stored,
      Live.target_amount_of (Live.SubRuleEntryRule_init rules target) = Some stored ->
      Live.SubRuleEntryRule_init rules stored = Live.SubRuleEntryRule_init rules target).
Proof.
  split_and!.
  - apply clamped_count_init.
  - apply clamped_sub_rule_init.
  - intros stored. unfold Live.CountMissionsEntryRule_init.
    destruct ((target =? -1) || (Z.of_nat (size missions) <? target)) eqn:E;
      intros [= <-].
    + clear E. by destruct (_ || _).
    + by rewrite E.
  - intros stored. unfold Live.SubRuleEntryRule_init.
    destruct ((target =? -1) || (len rules <? target)) eqn:E; intros [= <-].
    + clear E. by destruct (_ || _).
    + by rewrite E.
Qed.

Lemma sum_b2z_all {A} (f : A -> bool) (l : list A) :
  Forall (fun x => f x = true) l ->
  sum (map (fun x => Z.b2z (f x)) l) = len l.
Proof.
  unfold sum, len. induction 1 as [|x l Hx _ IH]; [done|].
  cbn [map foldr length]. rewrite Hx, IH. cbn [Z.b2z]. lia.
Qed.

Lemma missions_of_child (rules : list EntryRule) (target : Z) (rule : EntryRule) :
  rule ∈ rules ->
  Shape.missions_of rule ⊆ Shape.missions_of (Live.SubRuleEntryRule rules target).
Proof.
  intros Hrule m Hm. cbn [Shape.missions_of]. apply elem_of_union_list.
  exists (Shape.missions_of rule). split; [|done].
  by apply (list_elem_of_fmap_2 Shape.missions_of).
Qed.

(** X2. A clamped rule can be fulfilled: once every mission the rule
    counts or requires is beaten, the rule is fulfilled, whatever its
    thresholds. *)
Theorem clamped_rule_satisfiable (rule : EntryRule) (beaten : gset SC2MOGenMission) :
  Shape.clamped rule ->
  Shape.missions_of rule ⊆ beaten ->
  Live.is_fulfilled rule beaten = true.
Proof.
  induction rule as [ms vr|ms t vr|rules t IH] using EntryRule_nested_ind;
    intros Hclamped Hbeaten.
  - by apply bool_decide_eq_true.
  - inversion Hclamped as [|? ? ? Ht|]; subst. cbn [Live.is_fulfilled].
    cbn [Shape.missions_of] in Hbeaten.
    replace (beaten ∩ ms) with ms by set_solver. by apply Z.leb_le.
  - inversion Hclamped as [| |? ? Ht Hrules]; subst. cbn [Live.is_fulfilled].
    apply Z.leb_le. rewrite sum_b2z_all; [done|].
    apply Forall_forall. intros r Hr.
    rewrite Forall_forall in IH. rewrite Forall_forall in Hrules.
    apply IH; [done|by apply Hrules|].
    etrans; [by apply (missions_of_child rules t)|done].
Qed.

(** X3. A rule that [is_always_fulfilled] reports is fulfilled by every
    set of beaten missions, not only by the empty one. *)
Theorem always_fulfilled_by_every_set (rule : EntryRule) (beaten : gset SC2MOGenMission) :
  Live.is_always_fulfilled rule = true ->
  Live.is_fulfilled rule beaten = true.
Proof.
  unfold Live.is_always_fulfilled. apply live_is_fulfilled_mono. set_solver.
Qed.

Lemma is_fulfilled_within (rule : EntryRule) (beaten within : gset SC2MOGenMission) :
  Shape.missions_of rule ⊆ within ->
  Live.is_fulfilled rule beaten = Live.is_fulfilled rule (beaten ∩ within).
Proof.
  induction rule as [ms vr|ms t vr|rules t IH] using EntryRule_nested_ind;
    intros Hwithin.
  - cbn [Live.is_fulfilled Shape.missions_of] in *.
    apply bool_decide_ext. set_solver.
  - cbn [Live.is_fulfilled Shape.missions_of] in *.
    replace (beaten ∩ within ∩ ms) with (beaten ∩ ms) by set_solver. done.
  - cbn [Live.is_fulfilled]. f_equal. apply sum_b2z_ext.
    apply Forall_forall. intros r Hr. rewrite Forall_forall in IH.
    apply IH; [done|].
    etrans; [by apply (missions_of_child rules t)|done].
Qed.

(** X4. Only the missions of the rule matter: beaten missions that the
    rule and its nested rules neither require nor count never change
    whether it is fulfilled. *)
Theorem other_missions_do_not_matter (rule : EntryRule) (beaten : gset SC2MOGenMission) :
  Live.is_fulfilled rule beaten
  = Live.is_fulfilled rule (beaten ∩ Shape.missions_of rule).
Proof. by apply is_fulfilled_within. Qed.

End Thresholds.

(** ** Conversion without distinct ids *)
Section SharedIds.
Context {SC2MOGenMission : Type} `{Countable SC2MOGenMission}.
Variable mission : SC2MOGenMission -> SC2Mission.

Local Abbreviation EntryRule := (Live.EntryRule SC2MOGenMission).
Local Abbreviation mission_id := (fun m => id (mission m)).

(** X5. Distinct ids are needed for the conversion to be faithful: when
    two missions share an id, the rule that requires both is not
    fulfilled by the first alone, while its slot data is fulfilled by the
    id of the first. *)
Theorem shared_id_breaks_fidelity (m1 m2 : SC2MOGenMission) :
  m1 <> m2 ->
  id (mission m1) = id (mission m2) ->
  Live.is_fulfilled (Live.BeatMissionsEntryRule_init {[m1; m2]} []) {[m1]} = false
  /\ Data.is_fulfilled
       (Live.to_slot_data mission (Live.BeatMissionsEntryRule_init {[m1; m2]} []))
       (set_map mission_id ({[m1]} : gset SC2MOGenMission))
     = true.
Proof.
  intros Hne Hid. split.
  - apply bool_decide_eq_false. intros Hsub.
    assert (Hm2 : m2 ∈ ({[m1]} : gset SC2MOGenMission)) by (apply Hsub; set_solver).
    apply elem_of_singleton in Hm2. congruence.
  - apply bool_decide_eq_true.
    rewrite set_map_union_L, !set_map_singleton_L, Hid. set_solver.
Qed.

(** X6. Whether a rule is always fulfilled survives the conversion, with
    or without distinct ids: [is_always_fulfilled] on the live rule is
    [is_fulfilled] of its slot data on the empty set of ids. *)
Theorem always_fulfilled_converts (rule : EntryRule) :
  Live.is_always_fulfilled rule
  = Data.is_fulfilled (Live.to_slot_data mission rule) ∅.
Proof.
  unfold Live.is_always_fulfilled.
  induction rule as [ms vr|ms t vr|rules t IH] using EntryRule_nested_ind; simpl.
  - apply bool_decide_ext. split; intros Hsub.
    + assert (ms = ∅) as -> by set_solver. by rewrite set_map_empty.
    + intros m Hm. assert (mission_id m ∈ (∅ : gset Z)); [|set_solver].
      apply Hsub, elem_of_map. by exists m.
  - by rewrite !(left_absorb_L ∅ (∩)).
  - f_equal. rewrite map_map. apply sum_b2z_ext.
    eapply Forall_impl; [exact IH|]. by intros r ->.
Qed.

End SharedIds.

(** ** Thresholds of the rule data *)
Section DataThresholds.
Import Data.

Lemma sum_b2z_le_len {A} (f : A -> bool) (l : list A) :
  sum (map (fun x => Z.b2z (f x)) l) <= len l.
Proof.
  unfold sum, len. induction l as [|x l IH]; [done|].
  cbn [map foldr length]. destruct (f x); cbn [Z.b2z]; lia.
Qed.

(** X7. The rule data is not clamped, and its thresholds decide alone at
    both ends: an amount of at most 0 is met by every set of ids; an amount
    above the number of candidate ids, or above the number of sub-rules,
    is met by none. *)
Theorem data_threshold_bounds :
  (forall mission_ids amount visual_reqs beaten,
      amount <= 0 ->
      is_fulfilled (CountMissionsRuleData mission_ids amount visual_reqs) beaten = true)
  /\ (forall sub_rules amount beaten,
      amount <= 0 -> is_fulfilled (SubRuleRuleData sub_rules amount) beaten = true)
  /\ (forall mission_ids amount visual_reqs beaten,
      Z.of_nat (size mission_ids) < amount ->
      is_fulfilled (CountMissionsRuleData mission_ids amount visual_reqs) beaten = false)
  /\ (forall sub_rules amount beaten,
      len sub_rules < amount ->
      is_fulfilled (SubRuleRuleData sub_rules amount) beaten = false).
Proof.
  split_and!.
  - intros ids amount vr beaten Hle. simpl. apply Z.leb_le. lia.
  - intros rules amount beaten Hle. simpl. apply Z.leb_le.
    pose proof (sum_b2z_nonneg (fun r => is_fulfilled r beaten) rules). lia.
  - intros ids amount vr beaten Hlt. simpl. apply Z.leb_gt.
    assert (size (beaten ∩ ids) <= size ids)%nat by (apply subseteq_size; set_solver).
    lia.
  - intros rules amount beaten Hlt. simpl. apply Z.leb_gt.
    pose proof (sum_b2z_le_len (fun r => is_fulfilled r beaten) rules) as Hle.
    exact (Z.le_lt_trans _ _ _ Hle Hlt).
Qed.

(** X8. The empty sub-rule is a gate that is always open: it is
    fulfilled by every set of ids, and its tooltip, which never raises,
    is the heading for "all" conditions followed by one bullet without
    text. *)
Theorem empty_is_always_fulfilled :
  (forall beaten, is_fulfilled empty beaten = true)
  /\ (forall indents missions,
      tooltip empty indents missions
      = Ok ("Fulfill all of these conditions:" +:+ nl +:+ indent_of indents +:+ "- ")).
Proof.
  split.
  - intros beaten. reflexivity.
  - intros indents missions. cbn. unfold conditions, join. cbn [String.concat].
    by rewrite !append_assoc.
Qed.

End DataThresholds.

(** ** What a tooltip looks up *)
Section TooltipLookups.
Import Data.
Variable missions : gmap Z SC2Mission.

(** The outcome of a rendering that looks up the ids [ids]: it returns
    only if all of them are known, and raises only the [KeyError] of one
    that is not. *)
Local Abbreviation looked_up outcome ids :=
  (match outcome with
   | Ok _ => forall n : Z, In n ids -> is_Some (missions !! n)
   | Raise e => exists n : Z, e = KeyError (inr n) /\ In n ids /\ missions !! n = None
   end).

Local Abbreviation id_of_req :=
  (fun req : str_or_int => match req with inr n => [n] | inl _ => [] end).

Lemma req_label_looked_up (req : str_or_int) :
  looked_up (req_label missions req) (id_of_req req).
Proof.
  destruct req as [label|n]; simpl; [by intros n []|].
  destruct (missions !! n) as [m|] eqn:Hn.
  - intros n' [<-|[]]. by exists m.
  - exists n. split_and!; [done|by left|done].
Qed.

Lemma for_each_looked_up {A B} (f : A -> result B) (ids : A -> list Z) (l : list A) :
  Forall (fun x => looked_up (f x) (ids x)) l ->
  looked_up (for_each f l) (List.concat (map ids l)).
Proof.
  induction 1 as [|x l Hx _ IH]; [by intros n []|].
  cbn [for_each map List.concat].
  change (for_each f (x :: l)) with (y ← f x; ys ← for_each f l; Ok (y :: ys)).
  destruct (f x) as [y|e]; simpl.
  - destruct (for_each f l) as [ys|e]; simpl.
    + intros n [Hn|Hn]%in_app_iff; auto.
    + destruct IH as (n & -> & Hn & Hnone). exists n.
      split_and!; [done| |done]. apply in_app_iff. by right.
  - destruct Hx as (n & -> & Hn & Hnone). exists n.
    split_and!; [done| |done]. apply in_app_iff. by left.
Qed.

Lemma labels_looked_up (reqs : list str_or_int) :
  looked_up (for_each (req_label missions) reqs) (List.concat (map id_of_req reqs)).
Proof.
  apply for_each_looked_up, Forall_forall. intros req _. apply req_label_looked_up.
Qed.

Lemma BeatMissionsRuleData_tooltip_looked_up visual_reqs indents :
  looked_up (BeatMissionsRuleData_tooltip visual_reqs indents missions)
    (List.concat (map id_of_req visual_reqs)).
Proof.
  unfold BeatMissionsRuleData_tooltip, len.
  destruct visual_reqs as [|req [|req' reqs]].
  - by intros n [].
  - pose proof (req_label_looked_up req) as Hreq. simpl.
    destruct (req_label missions req); simpl; by rewrite app_nil_r.
  - destruct (Z.of_nat _ =? 1) eqn:Hone;
      [apply Z.eqb_eq in Hone; cbn [length] in Hone; lia|].
    pose proof (labels_looked_up (req :: req' :: reqs)) as Hreqs.
    by destruct (for_each _ _).
Qed.

Lemma in_ids_of_reqs (reqs : list str_or_int) (n : Z) :
  In n (List.concat (map id_of_req reqs)) <-> In (inr n) reqs.
Proof.
  induction reqs as [|[label|n'] reqs IH]; cbn [map List.concat app In].
  - done.
  - rewrite IH. split; [by right|]. by intros [[=]|].
  - rewrite IH. split; intros [Hn|Hn]; auto; left; congruence.
Qed.

(** X9. The tooltip of a BeatMissionsRuleData is rendered exactly when
    the lookup table holds every mission id that stands in its
    [visual_reqs]; neither the indent level nor the [mission_ids] play a
    part. *)
Theorem beat_tooltip_succeeds_iff (mission_ids : gset Z) (visual_reqs : list str_or_int)
    (indents : Z) :
  (exists text,
      tooltip (BeatMissionsRuleData mission_ids visual_reqs) indents missions = Ok text)
  <-> forall n, In (inr n) visual_reqs -> is_Some (missions !! n).
Proof.
  cbn [tooltip].
  pose proof (BeatMissionsRuleData_tooltip_looked_up visual_reqs indents) as Hlooked.
  destruct (BeatMissionsRuleData_tooltip visual_reqs indents missions) as [text|e].
  - split; [|by exists text]. intros _ n Hn. by apply Hlooked, in_ids_of_reqs.
  - destruct Hlooked as (n & _ & Hn%in_ids_of_reqs & Hnone). split.
    + by intros [text [=]].
    + intros Hall. destruct (Hall n Hn) as [m Hm]. congruence.
Qed.

(** X10. The tooltip of a BeatMissionsRuleData fails in one way only:
    with the [KeyError] of a mission id that stands in its [visual_reqs]
    and is missing from the lookup table. *)
Theorem beat_tooltip_raises_missing_id (mission_ids : gset Z)
    (visual_reqs : list str_or_int) (indents : Z) (e : exn) :
  tooltip (BeatMissionsRuleData mission_ids visual_reqs) indents missions = Raise e ->
  exists n, e = KeyError (inr n) /\ In (inr n) visual_reqs /\ missions !! n = None.
Proof.
  cbn [tooltip]. intros Hraise.
  pose proof (BeatMissionsRuleData_tooltip_looked_up visual_reqs indents) as Hlooked.
  rewrite Hraise in Hlooked. destruct Hlooked as (n & -> & Hn%in_ids_of_reqs & Hnone).
  by exists n.
Qed.

End TooltipLookups.

(** ** Tooltips of constructed rules *)
Section ConstructedTooltips.
Import Data.
Context {SC2MOGenMission : Type} `{Countable SC2MOGenMission}.
Variable mission : SC2MOGenMission -> SC2Mission.
Variable missions : gmap Z SC2Mission.

Local Abbreviation EntryRule := (Live.EntryRule SC2MOGenMission).
Local Abbreviation to_slot_data := (Live.to_slot_data mission).

Lemma to_slot_data_sub_rule_init (rules : list EntryRule) (target : Z) :
  to_slot_data (Live.SubRuleEntryRule_init rules target)
  = SubRuleRuleData (map to_slot_data rules)
      (if (target =? -1) || (len rules <? target) then len rules else target).
Proof. unfold Live.SubRuleEntryRule_init. by destruct (_ || _). Qed.

(** X11. A sub-rule constructed over a single rule with the target -1 or
    a target of at least 1 stores the threshold 1 and leaves no trace in
    the tooltip: its slot data renders as the slot data of that rule
    does, at the same indent level. *)
Theorem single_child_collapses (rule : EntryRule) (target indents : Z) :
  target = -1 \/ 1 <= target ->
  Live.target_amount_of (Live.SubRuleEntryRule_init [rule] target) = Some 1
  /\ tooltip (to_slot_data (Live.SubRuleEntryRule_init [rule] target)) indents missions
     = tooltip (to_slot_data rule) indents missions.
Proof.
  intros Htarget. split.
  { unfold Live.SubRuleEntryRule_init, len. cbn [length].
    destruct (Z.eqb_spec target (-1)); destruct (Z.ltb_spec (Z.of_nat 1) target);
      cbn [orb Live.target_amount_of]; f_equal; lia. }
  rewrite to_slot_data_sub_rule_init.
  assert ((if (target =? -1) || (len [rule] <? target) then len [rule] else target) = 1)
    as ->.
  { unfold len. cbn [length].
    destruct (Z.eqb_spec target (-1)); destruct (Z.ltb_spec (Z.of_nat 1) target);
      cbn [orb]; lia. }
  reflexivity.
Qed.

(** X12. A sub-rule constructed to require all of its rules says so: with
    the target -1 or one above the number of rules, and unless there is
    exactly one rule, the tooltip of its slot data is headed
    "Fulfill all of these conditions:" and lists the tooltips of the
    rules, rendered two levels deeper, as bullets in order. *)
Theorem require_all_sub_rule_tooltip (rules : list EntryRule) (target indents : Z)
    (parts : list string) :
  target = -1 \/ len rules < target ->
  length rules <> 1%nat ->
  Forall2 (fun rule part => tooltip (to_slot_data rule) (indents + 2) missions = Ok part)
    rules parts ->
  tooltip (to_slot_data (Live.SubRuleEntryRule_init rules target)) indents missions
  = Ok (("Fulfill all of these conditions:" +:+ nl +:+ indent_of indents +:+ "- ")
        +:+ join (nl +:+ indent_of indents +:+ "- ") parts).
Proof.
  intros Htarget Hmany Hparts. rewrite to_slot_data_sub_rule_init.
  assert ((target =? -1) || (len rules <? target) = true) as ->.
  { destruct Htarget as [->|Hlt]; [done|].
    apply orb_true_iff. right. by apply Z.ltb_lt. }
  rewrite (SubRuleRuleData_tooltip_many missions _ _ parts).
  - unfold len. rewrite length_map, Z.eqb_refl. done.
  - unfold len. rewrite length_map. lia.
  - by apply Forall2_fmap_l.
Qed.

(** X13. A count rule constructed to require all of its missions says so
    as well, when distinct missions have distinct ids: with the target -1
    or one above the number of missions, and several visual
    requirements, the tooltip of its slot data is headed "Beat all
    missions from:" ("mission" when there is one mission only). *)
Theorem require_all_count_tooltip (missions_to_count : gset SC2MOGenMission)
    (target indents : Z) (visual_reqs : list (string + SC2MOGenMission))
    (labels : list string) :
  (forall m1 m2, id (mission m1) = id (mission m2) -> m1 = m2) ->
  target = -1 \/ Z.of_nat (size missions_to_count) < target ->
  length visual_reqs <> 1%nat ->
  Forall2 (fun req label => req_label missions (Live.resolve_req mission req) = Ok label)
    visual_reqs labels ->
  tooltip (to_slot_data (Live.CountMissionsEntryRule_init missions_to_count target visual_reqs))
    indents missions
  = Ok (("Beat all"
         +:+ (if Z.of_nat (size missions_to_count) =? 1
              then " mission from:" else " missions from:")
         +:+ nl +:+ indent_of indents +:+ "- ")
        +:+ join (nl +:+ indent_of indents +:+ "- ") labels).
Proof.
  intros Hinj Htarget Hmany Hlabels. unfold Live.CountMissionsEntryRule_init.
  assert ((target =? -1) || (Z.of_nat (size missions_to_count) <? target) = true) as ->.
  { destruct Htarget as [->|Hlt]; [done|].
    apply orb_true_iff. right. by apply Z.ltb_lt. }
  cbn [Live.to_slot_data tooltip].
  rewrite (CountMissionsRuleData_tooltip_many missions _ _ _ labels).
  - rewrite (size_set_map_inj (fun m => id (mission m)) Hinj), Z.eqb_refl. done.
  - by rewrite length_map.
  - by apply Forall2_fmap_l.
Qed.

End ConstructedTooltips.

(** ** Errors and edge cases of the parser *)
Section ParserEdges.
Import Data.

(** X14. The first missing key is the one reported: a mapping without
    ['amount'] raises the [KeyError] of 'amount', whether or not it has
    ['sub_rules']; one with ['amount'] and without ['sub_rules'] raises
    the [KeyError] of 'sub_rules'; and a payload that is no mapping raises
    a [TypeError]. *)
Theorem parse_reports_first_missing_key :
  (forall entries,
      dict_get entries "amount" = None ->
      parse_from_dict (VDict entries) = Raise (KeyError (inl "amount"%string)))
  /\ (forall entries amount,
      dict_get entries "amount" = Some amount ->
      dict_get entries "sub_rules" = None ->
      parse_from_dict (VDict entries) = Raise (KeyError (inl "sub_rules"%string)))
  /\ (forall data,
      (forall entries, data <> VDict entries) ->
      parse_from_dict data = Raise TypeError).
Proof.
  split_and!.
  - intros entries Hamount. rewrite parse_from_dict_eq. simpl. by rewrite Hamount.
  - intros entries amount Hamount Hrules. rewrite parse_from_dict_eq. simpl.
    by rewrite Hamount, Hrules.
  - intros data Hdata. rewrite parse_from_dict_eq.
    destruct data as [n|s|l|entries]; try done. by destruct (Hdata entries).
Qed.

(** X15. The parser reads two keys of a sub-rule mapping and no other:
    mappings that bind ['amount'] and ['sub_rules'] alike parse alike,
    whatever else they hold and in whatever order. *)
Theorem parse_reads_two_keys (entries entries' : list (string * value)) :
  dict_get entries "amount" = dict_get entries' "amount" ->
  dict_get entries "sub_rules" = dict_get entries' "sub_rules" ->
  parse_from_dict (VDict entries) = parse_from_dict (VDict entries').
Proof.
  intros Hamount Hrules. rewrite !parse_from_dict_eq. simpl.
  by rewrite Hamount, Hrules.
Qed.

Lemma parse_rule_not_mapping (x : value) :
  (forall nested, x <> VDict nested) ->
  parse_rule parse_from_dict x = Raise TypeError
  \/ parse_rule parse_from_dict x = Raise AttributeError.
Proof.
  intros Hx. unfold parse_rule.
  destruct x as [n|s|l|nested]; simpl.
  - by left.
  - destruct (String.index 0 "sub_rules" s); simpl.
    + left. by rewrite parse_from_dict_eq.
    + right. by destruct (String.index 0 "amount" s).
  - destruct (existsb _ l); simpl.
    + left. by rewrite parse_from_dict_eq.
    + right. by destruct (existsb _ l).
  - by destruct (Hx nested).
Qed.

Lemma index_in_character (a b c : ascii) (key : string) :
  String.index 0 (String a (String b key)) (String c EmptyString) = None.
Proof. cbn [String.index String.prefix]. by destruct (ascii_dec a c). Qed.

Lemma parse_rule_character (c : ascii) :
  parse_rule parse_from_dict (VStr (String c EmptyString)) = Raise AttributeError.
Proof.
  unfold parse_rule, contains. by rewrite !index_in_character.
Qed.

(** X16. What is bound to ['sub_rules'] is only iterated: an integer
    raises a [TypeError]; an empty string or an empty mapping parses as a
    sub-rule without children; a string that is not empty raises an
    [AttributeError], raised for its first character; a mapping that is
    not empty raises for its first key. *)
Theorem sub_rules_need_not_be_a_list (entries : list (string * value)) (amount : value) :
  dict_get entries "amount" = Some amount ->
  (forall n, dict_get entries "sub_rules" = Some (VInt n) ->
             parse_from_dict (VDict entries) = Raise TypeError)
  /\ (dict_get entries "sub_rules" = Some (VStr EmptyString) ->
      parse_from_dict (VDict entries) = Ok (SubRuleRuleData [] amount))
  /\ (dict_get entries "sub_rules" = Some (VDict []) ->
      parse_from_dict (VDict entries) = Ok (SubRuleRuleData [] amount))
  /\ (forall c s, dict_get entries "sub_rules" = Some (VStr (String c s)) ->
                  parse_from_dict (VDict entries) = Raise AttributeError)
  /\ (forall key v rest, dict_get entries "sub_rules" = Some (VDict ((key, v) :: rest)) ->
                         parse_from_dict (VDict entries) = Raise TypeError
                         \/ parse_from_dict (VDict entries) = Raise AttributeError).
Proof.
  intros Hamount. split_and!.
  - intros n Hrules. rewrite parse_from_dict_eq. simpl. by rewrite Hamount, Hrules.
  - intros Hrules. rewrite parse_from_dict_eq. simpl. by rewrite Hamount, Hrules.
  - intros Hrules. rewrite parse_from_dict_eq. simpl. by rewrite Hamount, Hrules.
  - intros c s Hrules. rewrite parse_from_dict_eq. simpl. rewrite Hamount, Hrules.
    simpl. by rewrite parse_rule_character.
  - intros key v rest Hrules. rewrite parse_from_dict_eq. simpl.
    rewrite Hamount, Hrules. simpl.
    destruct (parse_rule_not_mapping (VStr key)) as [-> | ->]; [done|by left|by right].
Qed.

(** X17. Every nested payload has to be a mapping: a list under
    ['sub_rules'] that holds an integer, a string or a list anywhere makes
    the parser raise and return no rule, whatever the number of frames
    the recursion limit leaves it. *)
Theorem nested_payload_must_be_a_mapping (limit : nat) (entries : list (string * value))
    (rules : list value) (x : value) :
  dict_get entries "sub_rules" = Some (VList rules) ->
  In x rules ->
  (forall nested, x <> VDict nested) ->
  (exists e, parse_from_dict_upto limit (VDict entries) = Raise e)
  /\ (forall d, parse_from_dict_upto limit (VDict entries) <> Ok d).
Proof.
  intros Hrules Hx Hnot.
  assert (exists e, parse_rule parse_from_dict x = Raise e) as [e He].
  { destruct (parse_rule_not_mapping x Hnot) as [-> | ->]; by eexists. }
  destruct (parse_from_dict_nested_raises _ _ _ _ Hrules Hx He) as [e' He'].
  assert (Hnone : forall d, parse_from_dict_upto limit (VDict entries) <> Ok d).
  { intros d Hparse%parse_from_dict_upto_Ok. congruence. }
  split; [|done].
  destruct (parse_from_dict_upto limit (VDict entries)) as [d|e''];
    [by destruct (Hnone d)|by exists e''].
Qed.

Lemma for_each_first_raise {A B} (f : A -> result B) (before after : list A) (x : A)
    (parsed : list B) (e : exn) :
  Forall2 (fun y r => f y = Ok r) before parsed ->
  f x = Raise e ->
  for_each f (before ++ x :: after) = Raise e.
Proof.
  intros Hbefore Hx. induction Hbefore as [|y r before parsed Hy _ IH]; simpl.
  - by rewrite Hx.
  - by rewrite Hy, IH.
Qed.

(** X18. The parser stops at the first nested payload that fails: when
    the payloads before it parse, the exception it raises is the
    exception of the whole parse, whatever follows it. *)
Theorem first_failure_decides (entries : list (string * value)) (amount : value)
    (before after : list value) (x : value) (parsed : list ParsedRuleData) (e : exn) :
  dict_get entries "amount" = Some amount ->
  dict_get entries "sub_rules" = Some (VList (before ++ x :: after)) ->
  Forall2 (fun y rule => parse_rule parse_from_dict y = Ok rule) before parsed ->
  parse_rule parse_from_dict x = Raise e ->
  parse_from_dict (VDict entries) = Raise e.
Proof.
  intros Hamount Hrules Hbefore Hx. rewrite parse_from_dict_eq. simpl.
  rewrite Hamount, Hrules. simpl.
  by rewrite (for_each_first_raise _ _ _ _ parsed e Hbefore Hx).
Qed.

End ParserEdges.

(** ** Payloads the parser accepts *)
Section WellFormed.
Import Data.

Lemma has_key_Some entries key :
  has_key entries key = true -> exists v, dict_get entries key = Some v.
Proof. unfold has_key. destruct (dict_get entries key) as [v|]; [by exists v|done]. Qed.

Lemma has_key_In entries key :
  has_key entries key = true -> In key (map fst entries).
Proof.
  unfold has_key. induction entries as [|[k v] entries IH]; simpl; [done|].
  destruct (String.eqb_spec k key) as [->|Hne]; [by left|].
  intros Hkey. right. by apply IH.
Qed.

Lemma has_key_not_field fields entries key :
  Shape.exact_fields fields entries -> ~ In key fields -> has_key entries key = false.
Proof.
  intros [_ Hkeys] Hnot. destruct (has_key entries key) eqn:Hkey; [|done].
  destruct Hnot. by apply Hkeys, has_key_In.
Qed.

Lemma for_each_all_Ok {A B} (f : A -> result B) (l : list A) :
  Forall (fun x => exists y, f x = Ok y) l ->
  exists ys, for_each f l = Ok ys /\ length ys = length l.
Proof.
  induction 1 as [|x l [y Hy] _ (ys & Hys & Hlen)]; simpl.
  - by exists [].
  - exists (y :: ys). rewrite Hy, Hys. simpl. by rewrite Hlen.
Qed.

Lemma rule_payload_nested_ind (P : value -> Prop) :
  (forall entries amount rules,
      dict_get entries "amount" = Some amount ->
      dict_get entries "sub_rules" = Some (VList rules) ->
      Forall P rules ->
      P (VDict entries)) ->
  (forall entries,
      Shape.exact_fields ["mission_ids"; "amount"; "visual_reqs"]%string entries ->
      P (VDict entries)) ->
  (forall entries,
      Shape.exact_fields ["mission_ids"; "visual_reqs"]%string entries ->
      P (VDict entries)) ->
  forall x, Shape.rule_payload x -> P x.
Proof.
  intros Hsub Hcount Hbeat.
  fix IH 2. intros x [entries amount rules Hamount Hrules Hnested|entries Hfields|entries Hfields].
  - apply (Hsub entries amount rules Hamount Hrules).
    clear Hamount Hrules.
    induction Hnested as [|y rules Hy _ IHnested]; constructor.
    + apply IH, Hy.
    + apply IHnested.
  - by apply Hcount.
  - by apply Hbeat.
Qed.

Lemma rule_payload_parses (x : value) :
  Shape.rule_payload x -> exists d, parse_rule parse_from_dict x = Ok d.
Proof.
  induction 1 as [entries amount rules Hamount Hrules IH|entries Hfields|entries Hfields]
    using rule_payload_nested_ind; rewrite parse_rule_dict.
  - unfold has_key at 1. rewrite Hrules, parse_from_dict_eq. simpl.
    rewrite Hamount, Hrules. simpl.
    destruct (for_each_all_Ok _ _ IH) as (sub_rules & -> & _). by eexists.
  - rewrite (has_key_not_field _ _ "sub_rules" Hfields)
      by (intros [|[|[|[]]]]; done).
    destruct Hfields as [Hall Hkeys].
    destruct (has_key_Some entries "mission_ids") as [m Hm]; [apply Hall; simpl; auto|].
    destruct (has_key_Some entries "amount") as [a Ha]; [apply Hall; simpl; auto|].
    destruct (has_key_Some entries "visual_reqs") as [v Hv]; [apply Hall; simpl; auto|].
    rewrite (Hall "amount"%string) by (simpl; auto).
    exists (CountMissionsRuleData m a v).
    apply CountMissionsRuleData_kwargs_Ok. by exists m, a, v.
  - rewrite (has_key_not_field _ _ "sub_rules" Hfields)
      by (intros [|[|[]]]; done).
    rewrite (has_key_not_field _ _ "amount" Hfields)
      by (intros [|[|[]]]; done).
    destruct Hfields as [Hall Hkeys].
    destruct (has_key_Some entries "mission_ids") as [m Hm]; [apply Hall; simpl; auto|].
    destruct (has_key_Some entries "visual_reqs") as [v Hv]; [apply Hall; simpl; auto|].
    exists (BeatMissionsRuleData m v).
    apply BeatMissionsRuleData_kwargs_Ok. by exists m, v.
Qed.

(** X19. Within the recursion limit the parser accepts every payload of
    the expected shape: a mapping that binds ['amount'] and binds
    ['sub_rules'] to a list of nested payloads, each a sub-rule mapping of
    the same kind or a mapping with exactly the fields of one of the two
    leaf dataclasses, parses to a sub-rule with that amount and one child
    per nested payload, provided the payload nests less deep than the
    number of frames the recursion limit leaves the parser. *)
Theorem well_formed_payload_parses (limit : nat) (entries : list (string * value))
    (amount : value) (rules : list value) :
  (depth (VDict entries) < limit)%nat ->
  dict_get entries "amount" = Some amount ->
  dict_get entries "sub_rules" = Some (VList rules) ->
  Forall Shape.rule_payload rules ->
  exists sub_rules,
    parse_from_dict_upto limit (VDict entries) = Ok (SubRuleRuleData sub_rules amount)
    /\ length sub_rules = length rules.
Proof.
  intros Hdepth Hamount Hrules Hnested.
  rewrite (parse_from_dict_upto_enough _ _ Hdepth).
  rewrite parse_from_dict_eq. simpl.
  rewrite Hamount, Hrules. simpl.
  destruct (for_each_all_Ok (parse_rule parse_from_dict) rules)
    as (sub_rules & -> & Hlen).
  - eapply Forall_impl; [exact Hnested|]. apply rule_payload_parses.
  - by exists sub_rules.
Qed.

End WellFormed.

(** ** The lookup table a converted rule needs *)
Section NamedMissions.
Import Data.
Context {SC2MOGenMission : Type} `{Countable SC2MOGenMission}.
Variable mission : SC2MOGenMission -> SC2Mission.
Variable missions : gmap Z SC2Mission.

Local Abbreviation EntryRule := (Live.EntryRule SC2MOGenMission).

Lemma in_resolved_reqs (visual_reqs : list (string + SC2MOGenMission)) (n : Z) :
  In (inr n) (map (Live.resolve_req mission) visual_reqs)
  <-> exists m, In (inr m) visual_reqs /\ id (mission m) = n.
Proof.
  rewrite in_map_iff. split.
  - intros ([label|m] & Hreq & Hin); [discriminate|].
    exists m. split; [done|]. cbn in Hreq. congruence.
  - intros (m & Hin & <-). by exists (inr m).
Qed.

(** X20. The tooltip of a converted BeatMissionsEntryRule needs the
    missions its visual requirements name, and nothing else: the slot data
    of the rule renders exactly when the lookup table has an entry for the
    id of every mission that stands in its [visual_reqs]. *)
Theorem converted_beat_tooltip_needs_named_missions
    (missions_to_beat : gset SC2MOGenMission)
    (visual_reqs : list (string + SC2MOGenMission)) (indents : Z) :
  (exists text,
      tooltip (Live.to_slot_data mission
                 (Live.BeatMissionsEntryRule_init missions_to_beat visual_reqs))
        indents missions = Ok text)
  <-> forall m, In (inr m) visual_reqs -> is_Some (missions !! id (mission m)).
Proof.
  cbn [Live.BeatMissionsEntryRule_init Live.to_slot_data tooltip].
  pose proof (BeatMissionsRuleData_tooltip_looked_up missions
                (map (Live.resolve_req mission) visual_reqs) indents) as Hlooked.
  destruct (BeatMissionsRuleData_tooltip _ indents missions) as [text|e].
  - split; [|by exists text]. intros _ m Hm.
    apply Hlooked, in_ids_of_reqs, in_resolved_reqs. by exists m.
  - destruct Hlooked as (n & _ & Hn%in_ids_of_reqs & Hnone).
    apply in_resolved_reqs in Hn as (m & Hm & <-). split.
    + by intros [text [=]].
    + intros Hall. destruct (Hall m Hm) as [found Hfound]. congruence.
Qed.

End NamedMissions.

(** ** Further scenarios *)

(** X2 on scenario 3, with all three missions beaten. *)
Lemma clamped_rule_satisfiable_witness :
  Shape.clamped Scenario.rule
  /\ Shape.missions_of Scenario.rule ⊆ {[1%positive; 2%positive; 3%positive]}
  /\ Live.is_fulfilled Scenario.rule {[1%positive; 2%positive; 3%positive]} = true.
Proof.
  assert (Hclamped : Shape.clamped Scenario.rule).
  { apply clamped_sub_rule_init.
    constructor; [apply Shape.clamped_beat|].
    constructor; [apply clamped_count_init|constructor]. }
  assert (Hbeaten : Shape.missions_of Scenario.rule
                    ⊆ {[1%positive; 2%positive; 3%positive]}).
  { cbn. set_solver. }
  split; [exact Hclamped|]. split; [exact Hbeaten|].
  exact (clamped_rule_satisfiable Scenario.rule _ Hclamped Hbeaten).
Defined.

(** X3 on a count rule with the target 0, and a beaten mission it does
    not count. *)
Lemma always_fulfilled_by_every_set_witness :
  Live.is_always_fulfilled
    (Live.CountMissionsEntryRule_init ({[1%positive]} : gset positive) 0 []) = true
  /\ Live.is_fulfilled
       (Live.CountMissionsEntryRule_init ({[1%positive]} : gset positive) 0 [])
       {[2%positive]} = true.
Proof.
  assert (Halways : Live.is_always_fulfilled
            (Live.CountMissionsEntryRule_init ({[1%positive]} : gset positive) 0 [])
          = true).
  { unfold Live.is_always_fulfilled, Live.CountMissionsEntryRule_init.
    rewrite size_singleton. reflexivity. }
  split; [exact Halways|].
  exact (always_fulfilled_by_every_set _ {[2%positive]} Halways).
Defined.

(** X5 on two mission objects of the same [SC2Mission]. *)
Lemma shared_id_breaks_fidelity_witness :
  1%positive <> 2%positive
  /\ id (Cases.twin_mission 1) = id (Cases.twin_mission 2)
  /\ Live.is_fulfilled
       (Live.BeatMissionsEntryRule_init {[1%positive; 2%positive]} []) {[1%positive]}
     = false
  /\ Data.is_fulfilled
       (Live.to_slot_data Cases.twin_mission
          (Live.BeatMissionsEntryRule_init {[1%positive; 2%positive]} []))
       (set_map (fun m => id (Cases.twin_mission m)) ({[1%positive]} : gset positive))
     = true.
Proof.
  assert (Hne : 1%positive <> 2%positive) by discriminate.
  split; [exact Hne|]. split; [reflexivity|].
  exact (shared_id_breaks_fidelity Cases.twin_mission 1%positive 2%positive Hne eq_refl).
Defined.

(** X10 on a rule whose second requirement names mission 9. *)
Lemma beat_tooltip_raises_missing_id_witness :
  Data.tooltip (Data.BeatMissionsRuleData {[1; 9]} Cases.unknown_reqs) 1 Scenario.missions
  = Raise (KeyError (inr 9))
  /\ exists n, KeyError (inr 9) = KeyError (inr n)
               /\ In (inr n) Cases.unknown_reqs
               /\ Scenario.missions !! n = None.
Proof.
  assert (Hraise : Data.tooltip (Data.BeatMissionsRuleData {[1; 9]} Cases.unknown_reqs)
                     1 Scenario.missions
                   = Raise (KeyError (inr 9))) by (vm_compute; reflexivity).
  split; [exact Hraise|].
  exact (beat_tooltip_raises_missing_id Scenario.missions {[1; 9]} Cases.unknown_reqs
           1 _ Hraise).
Defined.

(** X11 on the sub-rule of the single rule "beat Alpha". *)
Lemma single_child_collapses_witness :
  (-1 = -1 \/ 1 <= -1)
  /\ Live.target_amount_of
       (Live.SubRuleEntryRule_init
          [Live.BeatMissionsEntryRule_init {[1%positive]} [inr 1%positive]] (-1))
     = Some 1
  /\ Data.tooltip
       (Live.to_slot_data Scenario.mission
          (Live.SubRuleEntryRule_init
             [Live.BeatMissionsEntryRule_init {[1%positive]} [inr 1%positive]] (-1)))
       1 Scenario.missions
     = Data.tooltip
         (Live.to_slot_data Scenario.mission
            (Live.BeatMissionsEntryRule_init {[1%positive]} [inr 1%positive]))
         1 Scenario.missions.
Proof.
  split; [by left|].
  exact (single_child_collapses Scenario.mission Scenario.missions
           (Live.BeatMissionsEntryRule_init {[1%positive]} [inr 1%positive])
           (-1) 1 (or_introl eq_refl)).
Defined.

(** X12 on scenario 4. *)
Lemma require_all_sub_rule_tooltip_witness :
  (-1 = -1 \/ len Cases.all_of_three < -1)
  /\ length Cases.all_of_three <> 1%nat
  /\ Forall2
       (fun rule part =>
          Data.tooltip (Live.to_slot_data Scenario.mission rule) (1 + 2) Scenario.missions
          = Ok part)
       Cases.all_of_three
       ["Beat Alpha"; "Beat Beta"; "Beat the third mission"]%string
  /\ Data.tooltip
       (Live.to_slot_data Scenario.mission
          (Live.SubRuleEntryRule_init Cases.all_of_three (-1)))
       1 Scenario.missions
     = Ok (("Fulfill all of these conditions:" +:+ nl +:+ Data.indent_of 1 +:+ "- ")
           +:+ join (nl +:+ Data.indent_of 1 +:+ "- ")
                 ["Beat Alpha"; "Beat Beta"; "Beat the third mission"]%string).
Proof.
  assert (Hmany : length Cases.all_of_three <> 1%nat) by discriminate.
  assert (Hparts : Forall2
            (fun rule part =>
               Data.tooltip (Live.to_slot_data Scenario.mission rule) (1 + 2)
                 Scenario.missions = Ok part)
            Cases.all_of_three
            ["Beat Alpha"; "Beat Beta"; "Beat the third mission"]%string).
  { repeat constructor. }
  split; [by left|]. split; [exact Hmany|]. split; [exact Hparts|].
  exact (require_all_sub_rule_tooltip Scenario.mission Scenario.missions
           Cases.all_of_three (-1) 1 _ (or_introl eq_refl) Hmany Hparts).
Defined.

Lemma scenario_ids_distinct (m1 m2 : positive) :
  id (Scenario.mission m1) = id (Scenario.mission m2) -> m1 = m2.
Proof. intros Hid. simpl in Hid. by injection Hid. Qed.

(** X13 on the count rule of scenario 3, asked for all of its missions. *)
Lemma require_all_count_tooltip_witness :
  (forall m1 m2 : positive,
      id (Scenario.mission m1) = id (Scenario.mission m2) -> m1 = m2)
  /\ (-1 = -1 \/ Z.of_nat (size ({[2%positive; 3%positive]} : gset positive)) < -1)
  /\ Data.tooltip
       (Live.to_slot_data Scenario.mission
          (Live.CountMissionsEntryRule_init {[2%positive; 3%positive]} (-1)
             [inr 2%positive; inl "the third mission"%string]))
       1 Scenario.missions
     = Ok (("Beat all"
            +:+ (if Z.of_nat (size ({[2%positive; 3%positive]} : gset positive)) =? 1
                 then " mission from:" else " missions from:")
            +:+ nl +:+ Data.indent_of 1 +:+ "- ")
           +:+ join (nl +:+ Data.indent_of 1 +:+ "- ")
                 ["Beta"; "the third mission"]%string).
Proof.
  split; [exact scenario_ids_distinct|]. split; [by left|].
  apply (require_all_count_tooltip Scenario.mission Scenario.missions
           {[2%positive; 3%positive]} (-1) 1
           [inr 2%positive; inl "the third mission"%string]
           ["Beta"; "the third mission"]%string
           scenario_ids_distinct (or_introl eq_refl)).
  - discriminate.
  - repeat constructor.
Defined.

(** X15 on scenario 5 and its annotated, reordered entries. *)
Lemma parse_reads_two_keys_witness :
  Data.parse_from_dict Scenario.payload
  = Data.parse_from_dict (Data.VDict Cases.annotated_entries).
Proof.
  exact (parse_reads_two_keys
           [("amount", Data.VInt 1);
            ("sub_rules",
             Data.VList
               [Data.VDict [("mission_ids", Data.VList [Data.VInt 5]);
                            ("visual_reqs", Data.VList [Data.VInt 5])]])]%string
           Cases.annotated_entries eq_refl eq_refl).
Defined.

(** X16 on a mapping whose ['sub_rules'] is the empty string. *)
Lemma sub_rules_need_not_be_a_list_witness :
  Data.dict_get Cases.entries_without_rules "amount" = Some (Data.VInt 0)
  /\ Data.parse_from_dict (Data.VDict Cases.entries_without_rules)
     = Ok (Data.SubRuleRuleData [] (Data.VInt 0)).
Proof.
  split; [reflexivity|].
  exact (proj1 (proj2 (sub_rules_need_not_be_a_list Cases.entries_without_rules
                         (Data.VInt 0) eq_refl))
           eq_refl).
Defined.

(** X17 on scenario 5 followed by an integer, with 1000 frames left. *)
Lemma nested_payload_must_be_a_mapping_witness :
  In (Data.VInt 5)
    [Data.VDict [("mission_ids", Data.VList [Data.VInt 5]);
                 ("visual_reqs", Data.VList [Data.VInt 5])];
     Data.VInt 5;
     Data.VStr "mission_ids"]%string
  /\ (exists e, Data.parse_from_dict_upto 1000 Cases.payload_with_stray_items = Raise e)
  /\ (forall d, Data.parse_from_dict_upto 1000 Cases.payload_with_stray_items <> Ok d).
Proof.
  split; [right; by left|].
  apply (nested_payload_must_be_a_mapping 1000
           [("amount", Data.VInt 1);
            ("sub_rules",
             Data.VList
               [Data.VDict [("mission_ids", Data.VList [Data.VInt 5]);
                            ("visual_reqs", Data.VList [Data.VInt 5])];
                Data.VInt 5;
                Data.VStr "mission_ids"])]%string
           _ (Data.VInt 5) eq_refl).
  - right. by left.
  - discriminate.
Defined.

(** X18 on the same payload: the integer fails with a [TypeError] before
    the string, which would fail with an [AttributeError], is reached. *)
Lemma first_failure_decides_witness :
  Data.parse_rule Data.parse_from_dict (Data.VInt 5) = Raise TypeError
  /\ Data.parse_rule Data.parse_from_dict (Data.VStr "mission_ids") = Raise AttributeError
  /\ Data.parse_from_dict Cases.payload_with_stray_items = Raise TypeError.
Proof.
  split; [reflexivity|]. split; [reflexivity|].
  apply (first_failure_decides
           [("amount", Data.VInt 1);
            ("sub_rules",
             Data.VList
               [Data.VDict [("mission_ids", Data.VList [Data.VInt 5]);
                            ("visual_reqs", Data.VList [Data.VInt 5])];
                Data.VInt 5;
                Data.VStr "mission_ids"])]%string
           (Data.VInt 1)
           [Data.VDict [("mission_ids", Data.VList [Data.VInt 5]);
                        ("visual_reqs", Data.VList [Data.VInt 5])]]%string
           [Data.VStr "mission_ids"]
           (Data.VInt 5)
           [Data.BeatMissionsRuleData (Data.VList [Data.VInt 5]) (Data.VList [Data.VInt 5])]
           TypeError eq_refl eq_refl).
  - repeat constructor.
  - reflexivity.
Defined.

(** X19 on scenario 5, with 1000 frames left. *)
Lemma well_formed_payload_parses_witness :
  (Data.depth Scenario.payload < 1000)%nat
  /\ Forall Shape.rule_payload
       [Data.VDict [("mission_ids", Data.VList [Data.VInt 5]);
                    ("visual_reqs", Data.VList [Data.VInt 5])]]%string
  /\ exists sub_rules,
      Data.parse_from_dict_upto 1000 Scenario.payload
      = Ok (Data.SubRuleRuleData sub_rules (Data.VInt 1))
      /\ length sub_rules = 1%nat.
Proof.
  assert (Hdepth : (Data.depth Scenario.payload < 1000)%nat)
    by (apply Nat.ltb_lt; vm_compute; reflexivity).
  assert (Hnested : Forall Shape.rule_payload
            [Data.VDict [("mission_ids", Data.VList [Data.VInt 5]);
                         ("visual_reqs", Data.VList [Data.VInt 5])]]%string).
  { constructor; [|constructor]. apply Shape.beat_payload. split.
    - intros field [<-|[<-|[]]]; reflexivity.
    - intros key [<-|[<-|[]]]; simpl; auto. }
  split; [exact Hdepth|]. split; [exact Hnested|].
  exact (well_formed_payload_parses 1000
           [("amount", Data.VInt 1);
            ("sub_rules",
             Data.VList
               [Data.VDict [("mission_ids", Data.VList [Data.VInt 5]);
                            ("visual_reqs", Data.VList [Data.VInt 5])]])]%string
           (Data.VInt 1) _ Hdepth eq_refl eq_refl Hnested).
Defined.

(** ** Predicates and growing collection states *)
Section GrowingStates.
Context {SC2MOGenMission : Type} `{Countable SC2MOGenMission}.
Variable beat_item : SC2MOGenMission -> string.
Variable CollectionState : Type.
Variable has : CollectionState -> string -> Z -> bool.
Variable has_all : CollectionState -> list string -> Z -> bool.

Local Abbreviation EntryRule := (Live.EntryRule SC2MOGenMission).
Local Abbreviation to_lambda := (Live.to_lambda beat_item CollectionState has has_all).

(** X21. Collecting more never closes a gate: when [has_all] is [has] on
    every item, and a second state holds, for the player, every item the
    first one holds, a predicate compiled by [to_lambda] that is true on
    the first state is true on the second. *)
Theorem lambda_monotone (rule : EntryRule) (player : Z) (state state' : CollectionState) :
  (forall st tokens,
      has_all st tokens player = true
      <-> forall token, token ∈ tokens -> has st token player = true) ->
  (forall item, has state item player = true -> has state' item player = true) ->
  to_lambda rule player state = true ->
  to_lambda rule player state' = true.
Proof.
  intros Hall Hgrow.
  induction rule as [ms vr|ms t vr|rules t IH] using EntryRule_nested_ind; simpl.
  - rewrite !Hall. intros Hheld token Htoken. by apply Hgrow, Hheld.
  - rewrite !Z.leb_le.
    pose proof (sum_b2z_le (fun m => has state (beat_item m) player)
                  (fun m => has state' (beat_item m) player) (elements ms)) as Hle.
    cbv beta in Hle. intros Ht. etrans; [exact Ht|]. apply Hle.
    apply Forall_forall. intros m _. apply Hgrow.
  - rewrite !Z.leb_le, !map_map.
    pose proof (sum_b2z_le (fun r => to_lambda r player state)
                  (fun r => to_lambda r player state') rules IH) as Hle.
    cbv beta in Hle. intros Ht. etrans; [exact Ht|exact Hle].
Qed.

End GrowingStates.

(** X21 on scenario 3: from holding "Beat Alpha" to holding "Beat Beta"
    as well. *)
Lemma lambda_monotone_witness :
  (forall item,
      Scenario.has {["Beat Alpha"%string]} item 0 = true ->
      Scenario.has {["Beat Alpha"%string; "Beat Beta"%string]} item 0 = true)
  /\ Live.to_lambda Scenario.beat_item (gset string) Scenario.has Scenario.has_all
       Scenario.rule 0 {["Beat Alpha"%string]} = true
  /\ Live.to_lambda Scenario.beat_item (gset string) Scenario.has Scenario.has_all
       Scenario.rule 0 {["Beat Alpha"%string; "Beat Beta"%string]} = true.
Proof.
  assert (Hgrow : forall item,
             Scenario.has {["Beat Alpha"%string]} item 0 = true ->
             Scenario.has {["Beat Alpha"%string; "Beat Beta"%string]} item 0 = true).
  { intros item. unfold Scenario.has. rewrite !bool_decide_eq_true. set_solver. }
  assert (Hfirst : Live.to_lambda Scenario.beat_item (gset string) Scenario.has
                     Scenario.has_all Scenario.rule 0 {["Beat Alpha"%string]} = true)
    by (vm_compute; reflexivity).
  split; [exact Hgrow|]. split; [exact Hfirst|].
  exact (lambda_monotone Scenario.beat_item (gset string) Scenario.has Scenario.has_all
           Scenario.rule 0 _ _ (fun st tokens => scenario_has_all st tokens)
           Hgrow Hfirst).
Defined.
